(** * Repair Log: the page component [src/app/page.tsx]

    A shallow embedding of the single view of the application: its React
    state, its event handlers ([init], [handleSubmit], [handleCSV],
    [refreshRepairs], [filterRepairs]) and the parts of the JavaScript
    runtime they rely on ([Number], [Date], truthiness).  Everything the
    component gets from outside (the session provider, the hosted store,
    the CSV tokenizer, the clock, the time zone) is answered by a [Host]. *)

From Stdlib Require Import ZArith Lia Ascii String List Floats.SpecFloat.
From stdpp Require Import base option list gmap strings.

Local Open Scope string_scope.
Local Open Scope Z_scope.

(** ** JavaScript numbers

    A JS number is an IEEE-754 binary64 value; [spec_float] with 53 bits of
    precision and [emax = 1024] is exactly that set of values. *)

Definition JsNumber : Type := spec_float.

Definition prec64 : Z := 53.
Definition emax64 : Z := 1024.

Definition NaN : JsNumber := S754_nan.

(** The number denoted by an integer literal (round to nearest, ties to even). *)
Definition JsInt (z : Z) : JsNumber := binary_normalize prec64 emax64 z 0 false.

(** The number nearest to [m * 10^e], the "mathematical value" of a decimal
    literal; [neg] is the sign of the literal. *)
Definition decimalNumber (neg : bool) (m e : Z) : JsNumber :=
  match m with
  | Zpos p =>
      if 0 <=? e
      then binary_round prec64 emax64 neg (Z.to_pos (Zpos p * 10 ^ e)) 0
      else SFdiv prec64 emax64 (S754_finite neg p 0)
                               (S754_finite false (Z.to_pos (10 ^ (- e))) 0)
  | _ => S754_zero neg
  end.

(** *** StringToNumber *)

Definition code (c : ascii) : Z := Z.of_N (N_of_ascii c).

(** A text is held as the bytes of its UTF-8 encoding.  The StrWhiteSpaceChar
    of one byte: TAB, LF, VT, FF, CR, SP. *)
Definition isWhiteSpace (c : ascii) : bool :=
  let n := code c in ((9 <=? n) && (n <=? 13)) || (n =? 32).

(** The StrWhiteSpaceChar of two bytes: U+00A0 (C2 A0). *)
Definition isWhiteSpace2 (b1 b2 : ascii) : bool :=
  (code b1 =? 194) && (code b2 =? 160).

(** The StrWhiteSpaceChar of three bytes: U+1680 (E1 9A 80), U+2000 to
    U+200A, U+2028, U+2029 and U+202F (E2 80 80 to 8A, A8, A9, AF), U+205F
    (E2 81 9F), U+3000 (E3 80 80) and U+FEFF (EF BB BF). *)
Definition isWhiteSpace3 (b1 b2 b3 : ascii) : bool :=
  let a := code b1 in
  let b := code b2 in
  let c := code b3 in
  ((a =? 225) && (b =? 154) && (c =? 128))
  || ((a =? 226) && (b =? 128)
      && (((128 <=? c) && (c <=? 138)) || (c =? 168) || (c =? 169) || (c =? 175)))
  || ((a =? 226) && (b =? 129) && (c =? 159))
  || ((a =? 227) && (b =? 128) && (c =? 128))
  || ((a =? 239) && (b =? 187) && (c =? 191)).

Definition digitValue (c : ascii) : option Z :=
  let n := code c in
  if (48 <=? n) && (n <=? 57) then Some (n - 48) else None.

(** Value of a digit of a non-decimal literal in the given radix. *)
Definition radixDigitValue (radix : Z) (c : ascii) : option Z :=
  let n := code c in
  let v := if (48 <=? n) && (n <=? 57) then n - 48
           else if (97 <=? n) && (n <=? 102) then n - 87
           else if (65 <=? n) && (n <=? 70) then n - 55
           else radix in
  if v <? radix then Some v else None.

(** The text without the white space it starts with. *)
Fixpoint dropWhiteSpace (l : list ascii) : list ascii :=
  match l with
  | [] => []
  | b1 :: l1 =>
      if isWhiteSpace b1 then dropWhiteSpace l1
      else match l1 with
           | [] => l
           | b2 :: l2 =>
               if isWhiteSpace2 b1 b2 then dropWhiteSpace l2
               else match l2 with
                    | [] => l
                    | b3 :: l3 =>
                        if isWhiteSpace3 b1 b2 b3 then dropWhiteSpace l3 else l
                    end
           end
  end.

(** The same from the end, on the bytes in reverse order. *)
Fixpoint dropWhiteSpaceBack (l : list ascii) : list ascii :=
  match l with
  | [] => []
  | b1 :: l1 =>
      if isWhiteSpace b1 then dropWhiteSpaceBack l1
      else match l1 with
           | [] => l
           | b2 :: l2 =>
               if isWhiteSpace2 b2 b1 then dropWhiteSpaceBack l2
               else match l2 with
                    | [] => l
                    | b3 :: l3 =>
                        if isWhiteSpace3 b3 b2 b1 then dropWhiteSpaceBack l3 else l
                    end
           end
  end.

Definition trimWhiteSpace (l : list ascii) : list ascii :=
  rev (dropWhiteSpaceBack (rev (dropWhiteSpace l))).

(** Longest prefix of decimal digits, and what follows it. *)
Fixpoint spanDigits (l : list ascii) : list Z * list ascii :=
  match l with
  | c :: l' =>
      match digitValue c with
      | Some d => let '(ds, r) := spanDigits l' in (d :: ds, r)
      | None => ([], l)
      end
  | [] => ([], [])
  end.

Definition digitsValue (radix : Z) (ds : list Z) : Z :=
  fold_left (fun a d => radix * a + d) ds 0.

(** The values of the characters when all of them are digits of the radix. *)
Fixpoint radixDigits (radix : Z) (l : list ascii) : option (list Z) :=
  match l with
  | [] => Some []
  | c :: l' =>
      match radixDigitValue radix c, radixDigits radix l' with
      | Some d, Some ds => Some (d :: ds)
      | _, _ => None
      end
  end.

(** ExponentPart (optional): [e] or [E], an optional sign, digits. *)
Definition parseExponent (l : list ascii) : option Z :=
  match l with
  | [] => Some 0
  | c :: l' =>
      if (code c =? 101) || (code c =? 69) then
        let '(neg, l'') :=
          match l' with
          | s :: t => if code s =? 43 then (false, t)
                      else if code s =? 45 then (true, t) else (false, l')
          | [] => (false, l')
          end in
        match spanDigits l'' with
        | (d :: ds, []) =>
            let v := digitsValue 10 (d :: ds) in Some (if neg then - v else v)
        | _ => None
        end
      else None
  end.

(** StrUnsignedDecimalLiteral other than [Infinity]: the mantissa and the
    decimal exponent of its mathematical value. *)
Definition parseUnsignedDecimal (l : list ascii) : option (Z * Z) :=
  let '(ip, r) := spanDigits l in
  match r with
  | c :: r' =>
      if code c =? 46 then
        let '(fp, r'') := spanDigits r' in
        match ip, fp with
        | [], [] => None
        | _, _ =>
            match parseExponent r'' with
            | Some e => Some (digitsValue 10 (ip ++ fp), e - Z.of_nat (length fp))
            | None => None
            end
        end
      else
        match ip with
        | [] => None
        | _ => match parseExponent r with
               | Some e => Some (digitsValue 10 ip, e)
               | None => None
               end
        end
  | [] => match ip with [] => None | _ => Some (digitsValue 10 ip, 0) end
  end.

Definition parseStrDecimalLiteral (l : list ascii) : JsNumber :=
  let '(neg, u) :=
    match l with
    | s :: t => if code s =? 43 then (false, t)
                else if code s =? 45 then (true, t) else (false, l)
    | [] => (false, l)
    end in
  if decide (u = list_ascii_of_string "Infinity") then S754_infinity neg
  else match parseUnsignedDecimal u with
       | Some (m, e) => decimalNumber neg m e
       | None => NaN
       end.

(** NonDecimalIntegerLiteral: [0x], [0o], [0b] prefixes (either case). *)
Definition parseNonDecimal (l : list ascii) : option JsNumber :=
  match l with
  | z :: p :: ds =>
      if code z =? 48 then
        let n := code p in
        let radix := if (n =? 120) || (n =? 88) then 16
                     else if (n =? 111) || (n =? 79) then 8
                     else if (n =? 98) || (n =? 66) then 2 else 0 in
        if radix =? 0 then None
        else match ds, radixDigits radix ds with
             | _ :: _, Some vs => Some (JsInt (digitsValue radix vs))
             | _, _ => None
             end
      else None
  | _ => None
  end.

(** [Number(s)] for a string [s]: the empty or blank string is [+0], a
    string that is no StringNumericLiteral is [NaN]. *)
Definition StringToNumber (s : string) : JsNumber :=
  let l := trimWhiteSpace (list_ascii_of_string s) in
  match l with
  | [] => S754_zero false
  | _ => match parseNonDecimal l with
         | Some n => n
         | None => parseStrDecimalLiteral l
         end
  end.

(** ** JavaScript dates

    A Date holds a time value: milliseconds since the epoch, or NaN for an
    invalid date.  The functions below are the abstract operations of the
    language specification on integral time values. *)

Definition msPerDay : Z := 86400000.
Definition msPerHour : Z := 3600000.
Definition msPerMinute : Z := 60000.
Definition msPerSecond : Z := 1000.

Definition Day (t : Z) : Z := t / msPerDay.
Definition TimeWithinDay (t : Z) : Z := t mod msPerDay.

Definition isLeapYear (y : Z) : bool :=
  (y mod 4 =? 0) && (negb (y mod 100 =? 0) || (y mod 400 =? 0)).

Definition DaysInYear (y : Z) : Z := if isLeapYear y then 366 else 365.

Definition DayFromYear (y : Z) : Z :=
  365 * (y - 1970) + (y - 1969) / 4 - (y - 1901) / 100 + (y - 1601) / 400.

Definition TimeFromYear (y : Z) : Z := msPerDay * DayFromYear y.

(** The largest year [y] with [TimeFromYear y <= t]: an estimate from the
    mean length of a year, corrected by at most one. *)
Definition YearFromTime (t : Z) : Z :=
  let d := Day t in
  let y := 1970 + (400 * d) / 146097 in
  if d <? DayFromYear y then y - 1
  else if DayFromYear (y + 1) <=? d then y + 1
  else y.

Definition InLeapYear (t : Z) : bool := isLeapYear (YearFromTime t).

Definition DayWithinYear (t : Z) : Z := Day t - DayFromYear (YearFromTime t).

(** Number of days of the year that precede month [m] (0 = January). *)
Definition monthStart (leap : bool) (m : Z) : Z :=
  let l := if leap then 1 else 0 in
  if m <=? 0 then 0
  else if m =? 1 then 31
  else if m =? 2 then 59 + l
  else if m =? 3 then 90 + l
  else if m =? 4 then 120 + l
  else if m =? 5 then 151 + l
  else if m =? 6 then 181 + l
  else if m =? 7 then 212 + l
  else if m =? 8 then 243 + l
  else if m =? 9 then 273 + l
  else if m =? 10 then 304 + l
  else if m =? 11 then 334 + l
  else 365 + l.

Definition MonthFromTime (t : Z) : Z :=
  let d := DayWithinYear t in
  let leap := InLeapYear t in
  if d <? monthStart leap 1 then 0
  else if d <? monthStart leap 2 then 1
  else if d <? monthStart leap 3 then 2
  else if d <? monthStart leap 4 then 3
  else if d <? monthStart leap 5 then 4
  else if d <? monthStart leap 6 then 5
  else if d <? monthStart leap 7 then 6
  else if d <? monthStart leap 8 then 7
  else if d <? monthStart leap 9 then 8
  else if d <? monthStart leap 10 then 9
  else if d <? monthStart leap 11 then 10
  else 11.

Definition DateFromTime (t : Z) : Z :=
  DayWithinYear t - monthStart (InLeapYear t) (MonthFromTime t) + 1.

Definition DaysInMonth (y m : Z) : Z :=
  monthStart (isLeapYear y) (m + 1) - monthStart (isLeapYear y) m.

Definition HourFromTime (t : Z) : Z := (t / msPerHour) mod 24.
Definition MinFromTime (t : Z) : Z := (t / msPerMinute) mod 60.
Definition SecFromTime (t : Z) : Z := (t / msPerSecond) mod 60.
Definition msFromTime (t : Z) : Z := t mod msPerSecond.

Definition MakeTime (hour min sec ms : Z) : Z :=
  hour * msPerHour + min * msPerMinute + sec * msPerSecond + ms.

(** [MakeDay]: months outside 0..11 carry into the year, the day of the
    month is an offset from the first of the month (so day 0 is the last
    day of the month before). *)
Definition MakeDay (year month date : Z) : Z :=
  let ym := year + month / 12 in
  let mn := month mod 12 in
  DayFromYear ym + monthStart (isLeapYear ym) mn + date - 1.

Definition MakeDate (day time : Z) : Z := day * msPerDay + time.

(** A Date object: [None] is the NaN time value of an invalid date. *)
Definition Date : Type := option Z.

Definition TimeClip (t : Z) : Date :=
  if Z.abs t <=? 8640000000000000 then Some t else None.

(** Exceptions a handler can raise. *)
Inductive JsError : Type :=
| RangeError (msg : string).

Inductive Outcome (A : Type) : Type :=
| Done (a : A)
| Thrown (e : JsError).
Arguments Done {A} a.
Arguments Thrown {A} e.

(** Decimal digits of [z], least significant last, on exactly [w] places. *)
Fixpoint padDigits (w : nat) (z : Z) : string :=
  match w with
  | O => ""
  | S w' => padDigits w' (z / 10) ++ String (ascii_of_N (Z.to_N (48 + z mod 10))) ""
  end.

(** [Date.prototype.toISOString]: [YYYY-MM-DDTHH:mm:ss.sssZ] in UTC, with a
    signed six-digit year outside 0..9999; an invalid date raises. *)
Definition toISOString (d : Date) : Outcome string :=
  match d with
  | None => Thrown (RangeError "Invalid time value")
  | Some tv =>
      let y := YearFromTime tv in
      let year := if (0 <=? y) && (y <=? 9999) then padDigits 4 y
                  else (if y <? 0 then "-" else "+") ++ padDigits 6 (Z.abs y) in
      Done (year ++ "-" ++ padDigits 2 (MonthFromTime tv + 1)
                 ++ "-" ++ padDigits 2 (DateFromTime tv)
                 ++ "T" ++ padDigits 2 (HourFromTime tv)
                 ++ ":" ++ padDigits 2 (MinFromTime tv)
                 ++ ":" ++ padDigits 2 (SecFromTime tv)
                 ++ "." ++ padDigits 3 (msFromTime tv) ++ "Z")
  end.

(** The date-only form [YYYY-MM-DD] of the Date Time String Format, for a
    month and a day of the month that exist: midnight UTC of that day.
    [None] when the string is not of that form. *)
Definition parseDateOnly (s : string) : option Z :=
  match list_ascii_of_string s with
  | [y1; y2; y3; y4; h1; m1; m2; h2; d1; d2] =>
      if (code h1 =? 45) && (code h2 =? 45) then
        match mapM digitValue [y1; y2; y3; y4],
              mapM digitValue [m1; m2], mapM digitValue [d1; d2] with
        | Some ys, Some ms, Some ds =>
            let y := digitsValue 10 ys in
            let m := digitsValue 10 ms in
            let d := digitsValue 10 ds in
            if (1 <=? m) && (m <=? 12) && (1 <=? d) && (d <=? DaysInMonth y (m - 1))
            then Some (MakeDate (MakeDay y (m - 1) d) (MakeTime 0 0 0 0))
            else None
        | _, _, _ => None
        end
      else None
  | _ => None
  end.

(** ** Data model *)

Inductive Source : Type := manual | csv.

(** A record as the client writes it (the store assigns [id]). *)
Record Repair : Type := mkRepair {
  listing_id : string;
  item_name : string;
  price : JsNumber;
  date_sold : string;
  quantity : JsNumber;
  notes : option string;
  source : Source
}.

Record StoredRepair : Type := mkStored {
  stored_id : Z;                      (* the column [id] *)
  columns : Repair
}.

(** The in-progress manual entry. *)
Record Form : Type := mkForm {
  form_item_name : string;
  form_listing_id : string;
  form_price : string;
  form_date_sold : string;
  form_quantity : JsNumber;
  form_notes : string
}.

(** A parsed CSV row: header name to field text; a field the line does not
    have is absent from the map. *)
Abbreviation Row := (gmap string string).

Inductive Filter : Type :=
| gte (column value : string)
| lte (column value : string).

Record Query : Type := mkQuery {
  from : string;
  select : string;
  filters : list Filter;
  order : option (string * bool)      (* column, ascending *)
}.

Record PostgrestError : Type := { message : string }.

Record Response : Type := mkResponse {
  data : option (list StoredRepair);
  error : option PostgrestError
}.

Record Session : Type := { access_token : string }.

(** ** The environment of the component *)

(** Calls that leave the component, indexed by the type of their answer. *)
Inductive Ext : Type -> Type :=
| auth_getSession : Ext (option Session)
| auth_signOut : Ext unit
| router_push (path : string) : Ext unit
| db_select (q : Query) : Ext Response
| db_insert (table : string) (rows : list Repair) : Ext (option PostgrestError)
| db_upsert (table : string) (rows : list Repair) (onConflict : list string)
    : Ext (option PostgrestError)
| window_alert (msg : string) : Ext unit
| console_error (label msg : string) : Ext unit
| Date_now : Ext Z
| Papa_parse (file : string) (header skipEmptyLines : bool) : Ext (list Row)
| preventDefault : Ext unit.

(** A call together with the answer it got. *)
Inductive Call : Type :=
| Called {X : Type} (c : Ext X) (answer : X).

(** What the runtime and the outside world decide: how a string that is not
    in the Date Time String Format parses, the offset of the local time
    zone, and the answers to external calls. *)
Class Host : Type := {
  implDateParse : string -> Date;
  LocalTZA : Z -> bool -> Z;
  World : Type;
  respond : forall X : Type, Ext X -> World -> X * World
}.

Section Runtime.
Context `{Host}.

(** [Date.parse] followed by the constructor's [TimeClip]. *)
Definition Date_parse (s : string) : Date :=
  match parseDateOnly s with
  | Some t => TimeClip t
  | None => match implDateParse s with
            | Some t => TimeClip t
            | None => None
            end
  end.

(** [new Date(v)] for a CSV field [v]: a string or [undefined]. *)
Definition Date_of_value (v : option string) : Date :=
  match v with
  | Some s => Date_parse s
  | None => None
  end.

Definition LocalTime (t : Z) : Z := t + LocalTZA t true.
Definition UTC (t : Z) : Z := t - LocalTZA t false.

(** [new Date(year, month, date)]: local midnight. *)
Definition Date_of_fields (year month date : Z) : Date :=
  let yr := if (0 <=? year) && (year <=? 99) then 1900 + year else year in
  TimeClip (UTC (MakeDate (MakeDay yr month date) (MakeTime 0 0 0 0))).

Definition getFullYear (now : Z) : Z := YearFromTime (LocalTime now).
Definition getMonth (now : Z) : Z := MonthFromTime (LocalTime now).

(** *** Values read from a CSV row *)

(** [ToBoolean] of a field: [undefined] and the empty string are falsy. *)
Definition truthy (v : option string) : bool :=
  match v with
  | Some s => negb (String.eqb s "")
  | None => false
  end.

(** [String(v)]. *)
Definition String_ (v : option string) : string :=
  match v with
  | Some s => s
  | None => "undefined"
  end.

(** [v || n] for a field [v] and a number [n]. *)
Definition orNumber (v : option string) (n : JsNumber) : string + JsNumber :=
  match v with
  | Some s => if truthy v then inl s else inr n
  | None => inr n
  end.

(** [Number(x)] for a string or a number. *)
Definition Number (x : string + JsNumber) : JsNumber :=
  match x with
  | inl s => StringToNumber s
  | inr n => n
  end.

(** [s.replace('$', '')]: the first dollar sign is removed. *)
Fixpoint replaceDollar (s : string) : string :=
  match s with
  | EmptyString => EmptyString
  | String c s' => if code c =? 36 then s' else String c (replaceDollar s')
  end.

(** [data || []]. *)
Definition orEmpty {A : Type} (d : option (list A)) : list A :=
  match d with
  | Some l => l
  | None => []
  end.

(** ** The component: state and handlers *)

Record UI : Type := mkUI {
  loading : bool;
  repairs : list StoredRepair;
  form : Form
}.

Definition emptyForm : Form :=
  {| form_item_name := ""; form_listing_id := ""; form_price := "";
     form_date_sold := ""; form_quantity := JsInt 1; form_notes := "" |}.

(** The state of the first render. *)
Definition initialUI : UI :=
  {| loading := true; repairs := []; form := emptyForm |}.

(** The component's state, the world outside, and the external calls made so
    far with their answers (oldest first). *)
Record St : Type := mkSt {
  ui : UI;
  world : World;
  calls : list Call
}.

(** Handlers run in a state monad with exceptions; what a handler did before
    it raised stays done. *)
Definition M (A : Type) : Type := St -> Outcome A * St.

Definition ret {A : Type} (a : A) : M A := fun st => (Done a, st).

Definition bind {A B : Type} (m : M A) (k : A -> M B) : M B :=
  fun st =>
    match m st with
    | (Done a, st') => k a st'
    | (Thrown e, st') => (Thrown e, st')
    end.

Definition lift {A : Type} (o : Outcome A) : M A := fun st => (o, st).

Definition call {X : Type} (c : Ext X) : M X :=
  fun st =>
    let '(x, w) := respond X c (world st) in
    (Done x, {| ui := ui st; world := w; calls := calls st ++ [Called c x] |}).

Definition getForm : M Form := fun st => (Done (form (ui st)), st).

Definition setUI (f : UI -> UI) : M unit :=
  fun st => (Done tt, {| ui := f (ui st); world := world st; calls := calls st |}).

Definition setForm (f : Form) : M unit :=
  setUI (fun u => {| loading := loading u; repairs := repairs u; form := f |}).

Definition setRepairs (l : list StoredRepair) : M unit :=
  setUI (fun u => {| loading := loading u; repairs := l; form := form u |}).

Definition setLoading (b : bool) : M unit :=
  setUI (fun u => {| loading := b; repairs := repairs u; form := form u |}).

Declare Scope handler_scope.
Delimit Scope handler_scope with handler.
Bind Scope handler_scope with M.
Notation "x <- m ;; k" := (bind m (fun x => k))
  (at level 100, m at next level, k at level 200, right associativity)
  : handler_scope.
Notation "m ;; k" := (bind m (fun _ => k))
  (at level 100, k at level 200, right associativity) : handler_scope.
Local Open Scope handler_scope.

(** The listing query of the initial load and of every refresh. *)
Definition listing : Query :=
  {| from := "repairs"; select := "*"; filters := [];
     order := Some ("date_sold", false) |}.

(** Auth guard and initial load. *)
Definition init : M unit :=
  session <- call auth_getSession ;;
  match session with
  | None => call (router_push "/login") ;; ret tt
  | Some _ =>
      r <- call (db_select listing) ;;
      match error r with
      | Some e => call (console_error "Supabase error:" (message e))
      | None => setRepairs (orEmpty (data r))
      end ;;
      setLoading false
  end.

(** Refresh of the table. *)
Definition refreshRepairs : M unit :=
  r <- call (db_select listing) ;;
  match error r with
  | None => setRepairs (orEmpty (data r))
  | Some _ => ret tt
  end.

(** Manual submit. *)
Definition handleSubmit : M unit :=
  call preventDefault ;;
  form <- getForm ;;
  error <- call (db_insert "repairs"
    [ {| item_name := form_item_name form;
         listing_id := form_listing_id form;
         date_sold := form_date_sold form;
         quantity := form_quantity form;
         notes := Some (form_notes form);
         price := Number (inl (form_price form));
         source := manual |} ]) ;;
  match error with
  | Some e => call (window_alert (message e))
  | None =>
      setForm {| form_item_name := ""; form_listing_id := ""; form_price := "";
                 form_date_sold := ""; form_quantity := JsInt 1;
                 form_notes := "" |} ;;
      refreshRepairs
  end.

(** The callback of [rows.map] in the CSV import: [None] is the [null] of a
    discarded row.  Past the gate the three required fields are non-empty
    strings, on which [String_] is the identity.  Of the fields of the
    record only [date_sold] can raise, so it is computed first here. *)
Definition normalizeRow (row : Row) : Outcome (option Repair) :=
  if negb (truthy (row !! "Order number")) || negb (truthy (row !! "Item title"))
     || negb (truthy (row !! "Total price"))
  then Done None
  else
    match toISOString (Date_of_value (row !! "Sale date")) with
    | Thrown e => Thrown e
    | Done iso =>
        Done (Some {| listing_id := String_ (row !! "Order number");
                      item_name := String_ (row !! "Item title");
                      price := Number (inl (replaceDollar (String_ (row !! "Total price"))));
                      date_sold := iso;
                      quantity := Number (orNumber (row !! "Quantity") (JsInt 1));
                      notes := None;
                      source := csv |})
    end.

(** [rows.map(...)]: rows are visited in order, the first exception ends the
    traversal. *)
Fixpoint mapRows (rows : list Row) : Outcome (list (option Repair)) :=
  match rows with
  | [] => Done []
  | row :: rows' =>
      match normalizeRow row with
      | Thrown e => Thrown e
      | Done r =>
          match mapRows rows' with
          | Thrown e => Thrown e
          | Done rs => Done (r :: rs)
          end
      end
  end.

(** [rows.map(...).filter(Boolean)]. *)
Definition normalizeRows (rows : list Row) : Outcome (list Repair) :=
  match mapRows rows with
  | Thrown e => Thrown e
  | Done rs => Done (omap id rs)
  end.

(** The [complete] callback of the CSV parse. *)
Definition complete (results_data : list Row) : M unit :=
  rows <- lift (normalizeRows results_data) ;;
  error <- call (db_upsert "repairs" rows ["listing_id"]) ;;
  match error with
  | Some e => call (window_alert (message e))
  | None =>
      call (window_alert "CSV imported successfully!") ;;
      refreshRepairs
  end.

(** CSV upload. *)
Definition handleCSV (file : string) : M unit :=
  results_data <- call (Papa_parse file true true) ;;
  complete results_data.

Definition addFilter (q : Query) (f : Filter) : Query :=
  {| from := from q; select := select q; filters := filters q ++ [f];
     order := order q |}.

Definition orderBy (q : Query) (column : string) (ascending : bool) : Query :=
  {| from := from q; select := select q; filters := filters q;
     order := Some (column, ascending) |}.

(** Period filters. *)
Definition filterRepairs (period : string) : M unit :=
  let query := {| from := "repairs"; select := "*"; filters := []; order := None |} in
  now <- call Date_now ;;
  query <- (if String.eqb period "thisMonth" then
              lo <- lift (toISOString (Date_of_fields (getFullYear now) (getMonth now) 1)) ;;
              ret (addFilter query (gte "date_sold" lo))
            else ret query) ;;
  query <- (if String.eqb period "lastMonth" then
              lo <- lift (toISOString (Date_of_fields (getFullYear now) (getMonth now - 1) 1)) ;;
              hi <- lift (toISOString (Date_of_fields (getFullYear now) (getMonth now) 0)) ;;
              ret (addFilter (addFilter query (gte "date_sold" lo)) (lte "date_sold" hi))
            else ret query) ;;
  query <- (if String.eqb period "thisYear" then
              lo <- lift (toISOString (Date_of_fields (getFullYear now) 0 1)) ;;
              ret (addFilter query (gte "date_sold" lo))
            else ret query) ;;
  r <- call (db_select (orderBy query "date_sold" false)) ;;
  setRepairs (orEmpty (data r)).

(** The logout button. *)
Definition logout : M unit :=
  call auth_signOut ;;
  call (router_push "/login").

(** What the user and the page life cycle can do to the component.  The page
    shows its controls once [loading] is false; here every event can happen
    in every state, which includes what the page allows. *)
Inductive UIEvent : Type :=
| Mount
| ChangeItemName (value : string)
| ChangeListingId (value : string)
| ChangePrice (value : string)
| ChangeDateSold (value : string)
| ChangeNotes (value : string)
| Submit
| ChooseFile (file : string)
| ClickFilter (period : string)
| ClickLogout.

(** The handler wired to each event in the rendered page. *)
Definition handler (ev : UIEvent) : M unit :=
  match ev with
  | Mount => init
  | ChangeItemName v =>
      form <- getForm ;;
      setForm {| form_item_name := v; form_listing_id := form_listing_id form;
                 form_price := form_price form; form_date_sold := form_date_sold form;
                 form_quantity := form_quantity form; form_notes := form_notes form |}
  | ChangeListingId v =>
      form <- getForm ;;
      setForm {| form_item_name := form_item_name form; form_listing_id := v;
                 form_price := form_price form; form_date_sold := form_date_sold form;
                 form_quantity := form_quantity form; form_notes := form_notes form |}
  | ChangePrice v =>
      form <- getForm ;;
      setForm {| form_item_name := form_item_name form;
                 form_listing_id := form_listing_id form;
                 form_price := v; form_date_sold := form_date_sold form;
                 form_quantity := form_quantity form; form_notes := form_notes form |}
  | ChangeDateSold v =>
      form <- getForm ;;
      setForm {| form_item_name := form_item_name form;
                 form_listing_id := form_listing_id form;
                 form_price := form_price form; form_date_sold := v;
                 form_quantity := form_quantity form; form_notes := form_notes form |}
  | ChangeNotes v =>
      form <- getForm ;;
      setForm {| form_item_name := form_item_name form;
                 form_listing_id := form_listing_id form;
                 form_price := form_price form; form_date_sold := form_date_sold form;
                 form_quantity := form_quantity form; form_notes := v |}
  | Submit => handleSubmit
  | ChooseFile file => handleCSV file
  | ClickFilter period => filterRepairs period
  | ClickLogout => logout
  end.

(** One event: the handler runs to its end or to an uncaught exception; the
    state it leaves is the state the next event finds. *)
Definition step (st : St) (ev : UIEvent) : St := snd (handler ev st).

Definition run (evs : list UIEvent) (st : St) : St := fold_left step evs st.

End Runtime.

(** ** The store, in memory *)

Definition hasListing (k : string) (s : StoredRepair) : bool :=
  String.eqb (listing_id (columns s)) k.

(** The conflict keys of a table, in the order of its records. *)
Definition keys (tbl : list StoredRepair) : list string :=
  map (fun s => listing_id (columns s)) tbl.

Definition nextId (tbl : list StoredRepair) : Z := Z.of_nat (length tbl) + 1.

(** Modelled from the spec: the write of one row of an upsert whose conflict
    key is [listing_id] (the hosted store is not part of the repository).
    "Existing records sharing a [listing_id] are overwritten by the incoming
    row; new [listing_id]s are inserted." *)
Definition upsertRow (tbl : list StoredRepair) (r : Repair) : list StoredRepair :=
  if existsb (hasListing (listing_id r)) tbl
  then map (fun s => if hasListing (listing_id r) s
                     then {| stored_id := stored_id s; columns := r |} else s) tbl
  else tbl ++ [ {| stored_id := nextId tbl; columns := r |} ].

(** Modelled from the spec: the bulk upsert, the rows of the batch applied
    in their order. *)
Definition upsert (batch : list Repair) (tbl : list StoredRepair) : list StoredRepair :=
  fold_left upsertRow batch tbl.

(** Modelled from the spec: a plain insert; [listing_id] is unique across
    all records, so a row whose [listing_id] is taken makes the insert fail. *)
Fixpoint insertRows (rows : list Repair) (tbl : list StoredRepair)
  : PostgrestError + list StoredRepair :=
  match rows with
  | [] => inr tbl
  | r :: rows' =>
      if existsb (hasListing (listing_id r)) tbl
      then inl {| message := "duplicate key value violates unique constraint" |}
      else insertRows rows' (tbl ++ [ {| stored_id := nextId tbl; columns := r |} ])
  end.

Definition satisfies (f : Filter) (s : StoredRepair) : bool :=
  match f with
  | gte _ v => String.leb v (date_sold (columns s))
  | lte _ v => String.leb (date_sold (columns s)) v
  end.

Fixpoint insertDesc (s : StoredRepair) (l : list StoredRepair) : list StoredRepair :=
  match l with
  | [] => [s]
  | x :: l' => if String.leb (date_sold (columns x)) (date_sold (columns s))
               then s :: l else x :: insertDesc s l'
  end.

(** Modelled from the spec: a select, every filter applied, newest first. *)
Definition selectRows (q : Query) (tbl : list StoredRepair) : list StoredRepair :=
  let kept := List.filter (fun s => forallb (fun f => satisfies f s) (filters q)) tbl in
  match order q with
  | Some _ => fold_right insertDesc [] kept
  | None => kept
  end.

(** A world held in memory: a session or none, the table, the clock, the
    rows the tokenizer yields, and whether the store can be reached. *)
Record MemWorld : Type := mkMem {
  mem_session : option Session;
  mem_table : list StoredRepair;
  mem_clock : Z;
  mem_csv : list Row;
  mem_offline : bool
}.

Definition unreachable : PostgrestError := {| message := "Failed to fetch" |}.

Definition memRespond (X : Type) (c : Ext X) (w : MemWorld) : X * MemWorld :=
  match c in Ext X return X * MemWorld with
  | auth_getSession => (mem_session w, w)
  | auth_signOut =>
      (tt, {| mem_session := None; mem_table := mem_table w; mem_clock := mem_clock w;
              mem_csv := mem_csv w; mem_offline := mem_offline w |})
  | router_push _ => (tt, w)
  | db_select q =>
      if mem_offline w then ({| data := None; error := Some unreachable |}, w)
      else ({| data := Some (selectRows q (mem_table w)); error := None |}, w)
  | db_insert _ rows =>
      if mem_offline w then (Some unreachable, w)
      else match insertRows rows (mem_table w) with
           | inl e => (Some e, w)
           | inr tbl =>
               (None, {| mem_session := mem_session w; mem_table := tbl;
                         mem_clock := mem_clock w; mem_csv := mem_csv w;
                         mem_offline := mem_offline w |})
           end
  | db_upsert _ rows _ =>
      if mem_offline w then (Some unreachable, w)
      else (None, {| mem_session := mem_session w; mem_table := upsert rows (mem_table w);
                     mem_clock := mem_clock w; mem_csv := mem_csv w;
                     mem_offline := mem_offline w |})
  | window_alert _ => (tt, w)
  | console_error _ _ => (tt, w)
  | Date_now => (mem_clock w, w)
  | Papa_parse _ _ _ => (mem_csv w, w)
  | preventDefault => (tt, w)
  end.

(** A host in the UTC time zone whose [Date.parse] knows the Date Time
    String Format only. *)
Definition memHost : Host :=
  {| implDateParse := fun _ => None;
     LocalTZA := fun _ _ => 0;
     World := MemWorld;
     respond := memRespond |}.

Definition memStart (w : MemWorld) : @St memHost :=
  @mkSt memHost initialUI w [].

(** The rows of the CSV text of the import scenario. *)
Definition row1001 : Row :=
  {[ "Order number" := "1001"; "Item title" := "Widget"; "Total price" := "$10.00";
     "Sale date" := "2024-01-05"; "Quantity" := "2" ]}.
Definition rowBad : Row :=
  {[ "Order number" := ""; "Item title" := "BadRow"; "Total price" := "$5";
     "Sale date" := "2024-01-06"; "Quantity" := "1" ]}.
Definition row1002 : Row :=
  {[ "Order number" := "1002"; "Item title" := "Gadget"; "Total price" := "$20.00";
     "Sale date" := "2024-02-01"; "Quantity" := "" ]}.

(** The same order twice, the second with other field values. *)
Definition row1001again : Row :=
  {[ "Order number" := "1001"; "Item title" := "Widget (relisted)";
     "Total price" := "$12.50"; "Sale date" := "2024-03-02"; "Quantity" := "3" ]}.

(** A row whose sale date no parser of [memHost] understands. *)
Definition rowBadDate : Row :=
  {[ "Order number" := "1003"; "Item title" := "Gizmo"; "Total price" := "$7.00";
     "Sale date" := "not a date"; "Quantity" := "1" ]}.

(** A row whose quantity is a fraction. *)
Definition rowHalf : Row :=
  {[ "Order number" := "1004"; "Item title" := "Cable"; "Total price" := "$3.00";
     "Sale date" := "2024-01-07"; "Quantity" := "2.5" ]}.

(** [Number.isInteger]. *)
Definition isInteger (n : JsNumber) : bool :=
  match n with
  | S754_zero _ => true
  | S754_finite _ m e => (0 <=? e) || (Zpos m mod 2 ^ (- e) =? 0)
  | _ => false
  end.

(** The integer a number is, when it is one. *)
Definition integerValue (n : JsNumber) : option Z :=
  match n with
  | S754_zero _ => Some 0
  | S754_finite s m e =>
      let sign := if s then -1 else 1 in
      if 0 <=? e then Some (sign * (Zpos m * 2 ^ e))
      else if Zpos m mod 2 ^ (- e) =? 0 then Some (sign * (Zpos m / 2 ^ (- e)))
      else None
  | _ => None
  end.

(** The no-break space U+00A0, in UTF-8. *)
Definition nbsp : string := String (ascii_of_N 194) (String (ascii_of_N 160) "").

(** A row whose price and quantity end with a no-break space. *)
Definition rowNbsp : Row :=
  {[ "Order number" := "1006"; "Item title" := "Clamp";
     "Total price" := ("$42.50" ++ nbsp)%string;
     "Sale date" := "2024-01-09"; "Quantity" := ("2" ++ nbsp)%string ]}.

(** The digits of a string made of decimal digits only. *)
Definition decimalDigits (s : string) : option (list Z) :=
  mapM digitValue (list_ascii_of_string s).

(** Noon UTC of 2024-03-15. *)
Definition noon_2024_03_15 : Z := 1710504000000.

Definition signedIn : MemWorld :=
  {| mem_session := Some {| access_token := "token" |}; mem_table := [];
     mem_clock := noon_2024_03_15; mem_csv := [row1001; rowBad; row1002];
     mem_offline := false |}.

Definition signedOut : MemWorld :=
  {| mem_session := None; mem_table := []; mem_clock := noon_2024_03_15;
     mem_csv := []; mem_offline := false |}.

Definition offline : MemWorld :=
  {| mem_session := Some {| access_token := "token" |}; mem_table := [];
     mem_clock := noon_2024_03_15; mem_csv := []; mem_offline := true |}.

(** ** Classifying the calls of a trace *)

Definition isSelect (c : Call) : bool :=
  match c with
  | Called (db_select _) _ => true
  | _ => false
  end.

Definition isWrite (c : Call) : bool :=
  match c with
  | Called (db_insert _ _) _ | Called (db_upsert _ _ _) _ => true
  | _ => false
  end.

(** Every row of an insert carries quantity 1. *)
Definition insertsQuantityOne (c : Call) : Prop :=
  match c with
  | Called (db_insert _ rows) _ => Forall (fun r => quantity r = JsInt 1) rows
  | _ => True
  end.

(** The field is missing or empty. *)
Definition missing (v : option string) : Prop := v = None \/ v = Some "".

(** The invariant of the manual path: the form holds quantity 1 and so did
    every insert made so far. *)
Definition Inv `{Host} (st : St) : Prop :=
  form_quantity (form (ui st)) = JsInt 1 /\ Forall insertsQuantityOne (calls st).

(** The handler keeps the invariant, whether it returns or raises. *)
Definition keeps `{Host} {A : Type} (m : M A) : Prop :=
  forall st : St, Inv st -> Inv (snd (m st)).

(** ** Further notions used by the properties *)

(** The validity gate of the import: the three required fields are there
    and not empty. *)
Definition passesGate (row : Row) : bool :=
  truthy (row !! "Order number") && truthy (row !! "Item title")
  && truthy (row !! "Total price").

(** The field of a row when the row passes the gate. *)
Definition keptField (field : string) (row : Row) : option string :=
  if passesGate row then row !! field else None.

(** The text has no dollar sign. *)
Definition noDollar (s : string) : Prop :=
  Forall (fun c => code c <> 36) (list_ascii_of_string s).

(** The text is empty or made of white space of one byte. *)
Definition blank (s : string) : Prop :=
  Forall (fun c => isWhiteSpace c = true) (list_ascii_of_string s).

(** A row with a dollar sign inside the price. *)
Definition rowDollarInside : Row :=
  {[ "Order number" := "1005"; "Item title" := "Hinge"; "Total price" := "1$0";
     "Sale date" := "2024-01-08"; "Quantity" := "1" ]}.

(** Events that only type into the form. *)
Definition isTyping (ev : UIEvent) : bool :=
  match ev with
  | ChangeItemName _ | ChangeListingId _ | ChangePrice _ | ChangeDateSold _
  | ChangeNotes _ => true
  | _ => false
  end.

(** Events other than a submit and the choice of a file. *)
Definition isReadOnly (ev : UIEvent) : bool :=
  match ev with
  | Submit | ChooseFile _ => false
  | _ => true
  end.

(** Events that are neither typing nor a submit. *)
Definition leavesForm (ev : UIEvent) : bool :=
  match ev with
  | Mount | ChooseFile _ | ClickFilter _ | ClickLogout => true
  | _ => false
  end.

Definition itemNameTyped (ev : UIEvent) : option string :=
  match ev with ChangeItemName v => Some v | _ => None end.
Definition listingIdTyped (ev : UIEvent) : option string :=
  match ev with ChangeListingId v => Some v | _ => None end.
Definition priceTyped (ev : UIEvent) : option string :=
  match ev with ChangePrice v => Some v | _ => None end.
Definition dateSoldTyped (ev : UIEvent) : option string :=
  match ev with ChangeDateSold v => Some v | _ => None end.
Definition notesTyped (ev : UIEvent) : option string :=
  match ev with ChangeNotes v => Some v | _ => None end.

(** The last value typed into a field, or what the field held before. *)
Definition lastTyped (typed : UIEvent -> option string) (evs : list UIEvent)
    (before : string) : string :=
  fold_left (fun cur ev => match typed ev with Some v => v | None => cur end)
            evs before.

(** Where a written row comes from: an insert is one manual row with notes
    into [repairs]; an upsert is a batch of CSV rows without notes into
    [repairs], on the conflict key [listing_id]. *)
Definition provenance (c : Call) : Prop :=
  match c with
  | Called (db_insert table rows) _ =>
      table = "repairs"
      /\ exists r, rows = [r] /\ source r = manual /\ notes r <> None
  | Called (db_upsert table rows onConflict) _ =>
      table = "repairs" /\ onConflict = ["listing_id"]
      /\ Forall (fun r => source r = csv /\ notes r = None) rows
  | _ => True
  end.

Definition notWrite (c : Call) : Prop := isWrite c = false.

(** The shape of the queries of the page: all columns of [repairs], newest
    sale first, filtered on [date_sold] if at all. *)
Definition queryShaped (c : Call) : Prop :=
  match c with
  | Called (db_select q) _ =>
      from q = "repairs" /\ select q = "*" /\ order q = Some ("date_sold", false)
      /\ Forall (fun f => match f with
                          | gte column _ | lte column _ => column = "date_sold"
                          end) (filters q)
  | _ => True
  end.

(** An invariant made of a property of the view state and a property of
    every call made so far. *)
Definition InvOf `{Host} (PU : UI -> Prop) (PC : Call -> Prop) (st : St) : Prop :=
  PU (ui st) /\ Forall PC (calls st).

Definition keepsOf `{Host} (PU : UI -> Prop) (PC : Call -> Prop) {A : Type}
    (m : M A) : Prop :=
  forall st : St, InvOf PU PC st -> InvOf PU PC (snd (m st)).

(** * Properties *)

Local Open Scope list_scope.

(** ** The runtime on small inputs *)

Example Number_10_00 : StringToNumber "10.00" = JsInt 10.
Proof. vm_compute. reflexivity. Qed.

Example Number_blank : StringToNumber "  " = S754_zero false.
Proof. reflexivity. Qed.

Example Number_hex : StringToNumber "0x1F" = JsInt 31.
Proof. vm_compute. reflexivity. Qed.

Example Number_text : StringToNumber "12abc" = NaN.
Proof. vm_compute. reflexivity. Qed.

Example Number_exponent : StringToNumber "1e3" = JsInt 1000.
Proof. vm_compute. reflexivity. Qed.

(** Beyond 53 bits the nearest number is taken. *)
Example Number_rounds :
  StringToNumber "9007199254740993" = JsInt 9007199254740992.
Proof. vm_compute. reflexivity. Qed.

(** 42.5 is [5981343255101440 * 2^-47]. *)
Example Number_42_5 :
  decimalNumber false 425 (-1) = S754_finite false 5981343255101440 (-47)
  /\ 5981343255101440 * 10 = 425 * 2 ^ 47.
Proof. split; vm_compute; reflexivity. Qed.

Example JsInt_10 :
  JsInt 10 = S754_finite false 5629499534213120 (-49)
  /\ 5629499534213120 = 10 * 2 ^ 49.
Proof. split; vm_compute; reflexivity. Qed.

(** White space of more than one byte is trimmed like a space. *)
Example Number_nbsp : StringToNumber ("2" ++ nbsp)%string = JsInt 2.
Proof. vm_compute. reflexivity. Qed.

Example Number_unicode_spaces :
  StringToNumber (String (ascii_of_N 239) (String (ascii_of_N 187)
                   (String (ascii_of_N 191) ("42.50 " ++ nbsp))))%string
  = decimalNumber false 425 (-1).
Proof. vm_compute. reflexivity. Qed.

(** White space inside a numeral is not trimmed. *)
Example Number_nbsp_inside : StringToNumber ("1" ++ nbsp ++ "2")%string = NaN.
Proof. vm_compute. reflexivity. Qed.

(** A blank quantity is not empty: it counts as 0, not as the default 1. *)
Example Number_space : StringToNumber " " = S754_zero false.
Proof. reflexivity. Qed.

Example integerValue_examples :
  integerValue (JsInt 10) = Some 10
  /\ integerValue (decimalNumber false 25 (-1)) = None
  /\ integerValue (JsInt (-3)) = Some (-3).
Proof. repeat split; vm_compute; reflexivity. Qed.

(** A price and a quantity that end with a no-break space read as 42.5 and 2. *)
Example row_with_nbsp :
  exists rec : Repair,
    @normalizeRow memHost rowNbsp = Done (Some rec)
    /\ price rec = decimalNumber false 425 (-1)
    /\ quantity rec = JsInt 2.
Proof. eexists. repeat split; vm_compute; reflexivity. Qed.

Example replaceDollar_first : replaceDollar "$1$2" = "1$2".
Proof. reflexivity. Qed.

Example epoch_year : YearFromTime (-1) = 1969 /\ YearFromTime 0 = 1970.
Proof. split; reflexivity. Qed.

Example parse_2024_01_05 : parseDateOnly "2024-01-05" = Some 1704412800000.
Proof. vm_compute. reflexivity. Qed.

Example parse_no_such_day : parseDateOnly "2024-02-30" = None.
Proof. vm_compute. reflexivity. Qed.

Example iso_2024_01_05 :
  toISOString (Some 1704412800000) = Done "2024-01-05T00:00:00.000Z".
Proof. vm_compute. reflexivity. Qed.

Example iso_before_epoch :
  toISOString (Some (-1)) = Done "1969-12-31T23:59:59.999Z".
Proof. vm_compute. reflexivity. Qed.

Example iso_invalid : toISOString None = Thrown (RangeError "Invalid time value").
Proof. reflexivity. Qed.

(** January: the month before is December of the year before. *)
Example previous_month_of_january :
  MakeDate (MakeDay 2024 (0 - 1) 1) 0 = 1701388800000
  /\ toISOString (Some 1701388800000) = Done "2023-12-01T00:00:00.000Z"
  /\ toISOString (Some (MakeDate (MakeDay 2024 0 0) 0)) = Done "2023-12-31T00:00:00.000Z".
Proof. repeat split; vm_compute; reflexivity. Qed.

(** The Date constructor reads a two-digit year as 19xx. *)
Example two_digit_year :
  @Date_of_fields memHost 50 0 1 = @Date_of_fields memHost 1950 0 1.
Proof. reflexivity. Qed.

(** A signed-out visitor: the guard redirects and fetches nothing. *)
Example mount_signed_out :
  calls (@run memHost [Mount] (memStart signedOut))
  = [Called auth_getSession None; Called (router_push "/login") tt]
  /\ ui (@run memHost [Mount] (memStart signedOut)) = initialUI.
Proof. split; reflexivity. Qed.

(** A store that cannot be reached: the filter empties the list. *)
Example filter_offline :
  repairs (ui (@run memHost [ClickFilter "thisYear"] (memStart offline))) = [].
Proof. vm_compute. reflexivity. Qed.

(** A second manual entry for a taken [listing_id] is refused by the store
    and the form keeps what was typed. *)
Example submit_duplicate :
  let st := @run memHost [ChangeListingId "A1"; Submit; ChangeListingId "A1";
                          ChangeItemName "Lamp"; Submit] (memStart signedIn) in
  form_item_name (form (ui st)) = "Lamp"
  /\ form_listing_id (form (ui st)) = "A1"
  /\ length (mem_table (world st)) = 1%nat.
Proof. vm_compute. repeat split; reflexivity. Qed.

(** ** The calendar *)

Ltac zdiv := Z.div_mod_to_equations; lia.

Lemma isLeapYear_spec y :
  isLeapYear y = true <-> (y mod 4 = 0 /\ (y mod 100 <> 0 \/ y mod 400 = 0)).
Proof.
  unfold isLeapYear.
  rewrite andb_true_iff, orb_true_iff, negb_true_iff, !Z.eqb_eq, Z.eqb_neq.
  tauto.
Qed.

(** A year is as long as the distance between its first day and the next
    year's. *)
Lemma DayFromYear_succ y : DayFromYear (y + 1) = DayFromYear y + DaysInYear y.
Proof.
  unfold DaysInYear.
  destruct (isLeapYear y) eqn:E.
  - apply isLeapYear_spec in E. unfold DayFromYear. zdiv.
  - assert (~ (y mod 4 = 0 /\ (y mod 100 <> 0 \/ y mod 400 = 0))) as Hn
      by (rewrite <- isLeapYear_spec; congruence).
    unfold DayFromYear. zdiv.
Qed.

Lemma DayFromYear_mono a b : a <= b -> DayFromYear a <= DayFromYear b.
Proof. unfold DayFromYear. intros. zdiv. Qed.

(** [YearFromTime] returns a year that contains the day. *)
Lemma YearFromTime_bounds t :
  DayFromYear (YearFromTime t) <= Day t < DayFromYear (YearFromTime t + 1).
Proof.
  unfold YearFromTime. generalize (Day t). intros d.
  set (y := 1970 + 400 * d / 146097).
  assert (Hy : 146097 * (y - 1970) <= 400 * d < 146097 * (y - 1970) + 146097)
    by (subst y; zdiv).
  clearbody y.
  destruct (Z.ltb_spec d (DayFromYear y)) as [H1|H1].
  - replace (y - 1 + 1) with y by lia. split; [|lia].
    unfold DayFromYear in *. zdiv.
  - destruct (Z.leb_spec (DayFromYear (y + 1)) d) as [H2|H2].
    + split; [lia|]. unfold DayFromYear in *. zdiv.
    + lia.
Qed.

(** In milliseconds: [YearFromTime t] is the largest year that starts at or
    before [t]. *)
Lemma YearFromTime_largest t :
  TimeFromYear (YearFromTime t) <= t
  /\ forall y, TimeFromYear y <= t -> y <= YearFromTime t.
Proof.
  pose proof (YearFromTime_bounds t) as [Hlo Hhi].
  unfold TimeFromYear, Day, msPerDay in *. split; [zdiv|].
  intros y Hy.
  destruct (Z.le_gt_cases y (YearFromTime t)) as [Hle|Hgt]; [assumption|].
  pose proof (DayFromYear_mono (YearFromTime t + 1) y ltac:(lia)). zdiv.
Qed.

(** ... and it is the only such year. *)
Lemma YearFromTime_unique t y :
  DayFromYear y <= Day t < DayFromYear (y + 1) -> YearFromTime t = y.
Proof.
  intros Hy. pose proof (YearFromTime_bounds t) as Hb.
  destruct (Z.lt_trichotomy (YearFromTime t) y) as [Hlt|[Heq|Hgt]]; [|exact Heq|].
  - pose proof (DayFromYear_mono (YearFromTime t + 1) y). lia.
  - pose proof (DayFromYear_mono (y + 1) (YearFromTime t)). lia.
Qed.

Lemma Day_MakeDate d tod : 0 <= tod < msPerDay -> Day (MakeDate d tod) = d.
Proof. unfold Day, MakeDate, msPerDay. intros. zdiv. Qed.

Lemma TimeWithinDay_MakeDate d tod :
  0 <= tod < msPerDay -> TimeWithinDay (MakeDate d tod) = tod.
Proof. unfold TimeWithinDay, MakeDate, msPerDay. intros. zdiv. Qed.

Lemma MonthFromTime_range t : 0 <= MonthFromTime t <= 11.
Proof.
  unfold MonthFromTime.
  repeat match goal with
         | |- context [if ?b then _ else _] => destruct b
         end; lia.
Qed.

Ltac months m :=
  assert (m = 0 \/ m = 1 \/ m = 2 \/ m = 3 \/ m = 4 \/ m = 5 \/ m = 6 \/ m = 7
          \/ m = 8 \/ m = 9 \/ m = 10 \/ m = 11) as Hmonths by lia;
  repeat (destruct Hmonths as [->|Hmonths]); [..|subst m].

(** Evaluates [monthStart] where the year's kind and the month are known. *)
Ltac eval_months :=
  repeat match goal with
         | |- context [monthStart ?l ?m] =>
             let v := eval vm_compute in (monthStart l m) in
             change (monthStart l m) with v
         | H : context [monthStart ?l ?m] |- _ =>
             let v := eval vm_compute in (monthStart l m) in
             change (monthStart l m) with v in H
         end.

(** Reading back the calendar fields of day [dt] of month [m] of year [y]
    at the time [tod] of the day. *)
Lemma fields_of_MakeDay y m dt tod :
  0 <= m <= 11 -> 1 <= dt <= DaysInMonth y m -> 0 <= tod < msPerDay ->
  let t := MakeDate (MakeDay y m dt) tod in
  YearFromTime t = y /\ MonthFromTime t = m /\ DateFromTime t = dt
  /\ TimeWithinDay t = tod.
Proof.
  intros Hm Hdt Htod t.
  assert (Hday : Day t = DayFromYear y + monthStart (isLeapYear y) m + dt - 1).
  { subst t. rewrite Day_MakeDate by assumption. unfold MakeDay.
    rewrite Z.div_small, Z.mod_small by lia.
    replace (y + 0) with y by lia. reflexivity. }
  assert (Hyear : YearFromTime t = y).
  { apply YearFromTime_unique. rewrite Hday, DayFromYear_succ.
    unfold DaysInMonth, DaysInYear in *.
    destruct (isLeapYear y); months m; eval_months; lia. }
  assert (Hdwy : DayWithinYear t = monthStart (isLeapYear y) m + dt - 1)
    by (unfold DayWithinYear; rewrite Hyear, Hday; lia).
  assert (Hmonth : MonthFromTime t = m).
  { unfold MonthFromTime, InLeapYear. rewrite Hyear, Hdwy.
    unfold DaysInMonth in *.
    destruct (isLeapYear y); months m; eval_months;
      repeat match goal with
             | |- context [?a <? ?b] => destruct (Z.ltb_spec a b); try lia
             end. }
  repeat split; try assumption.
  - unfold DateFromTime, InLeapYear. rewrite Hyear, Hmonth, Hdwy. lia.
  - subst t. apply TimeWithinDay_MakeDate. assumption.
Qed.

Lemma DaysInMonth_pos y m : 0 <= m <= 11 -> 28 <= DaysInMonth y m <= 31.
Proof.
  intros Hm. unfold DaysInMonth.
  destruct (isLeapYear y); months m; eval_months; lia.
Qed.

Lemma MakeDay_in_year y m dt :
  0 <= m <= 11 ->
  MakeDay y m dt = DayFromYear y + monthStart (isLeapYear y) m + dt - 1.
Proof.
  intros Hm. unfold MakeDay.
  rewrite Z.div_small, Z.mod_small by lia.
  replace (y + 0) with y by lia. reflexivity.
Qed.

(** [MakeDay] with a month before January: December of the year before. *)
Lemma MakeDay_previous_month y m dt :
  0 <= m <= 11 ->
  MakeDay y (m - 1) dt
  = MakeDay (if m =? 0 then y - 1 else y) (if m =? 0 then 11 else m - 1) dt.
Proof.
  intros Hm. destruct (Z.eqb_spec m 0) as [->|Hne]; [|reflexivity].
  rewrite (MakeDay_in_year (y - 1) 11) by lia.
  unfold MakeDay. change ((0 - 1) / 12) with (-1). change ((0 - 1) mod 12) with 11.
  replace (y + -1) with (y - 1) by lia. reflexivity.
Qed.

(** Day 0 of a month is the last day of the month before. *)
Lemma MakeDay_day_zero y m :
  0 <= m <= 11 ->
  MakeDay y m 0
  = MakeDay (if m =? 0 then y - 1 else y) (if m =? 0 then 11 else m - 1)
            (DaysInMonth (if m =? 0 then y - 1 else y) (if m =? 0 then 11 else m - 1)).
Proof.
  intros Hm. rewrite (MakeDay_in_year y m) by assumption.
  destruct (Z.eqb_spec m 0) as [->|Hne].
  - rewrite MakeDay_in_year by lia. unfold DaysInMonth.
    replace y with (y - 1 + 1) at 1 by lia.
    rewrite DayFromYear_succ. unfold DaysInYear.
    destruct (isLeapYear (y - 1)), (isLeapYear (y - 1 + 1)); eval_months; lia.
  - rewrite MakeDay_in_year by lia. unfold DaysInMonth.
    replace (m - 1 + 1) with m by lia. lia.
Qed.

(** ** Numbers written with decimal digits only *)

Lemma digitValue_Some c d :
  digitValue c = Some d -> 48 <= code c <= 57 /\ d = code c - 48.
Proof.
  unfold digitValue.
  destruct (Z.leb_spec 48 (code c)), (Z.leb_spec (code c) 57); cbn [andb];
    try discriminate.
  intros [= <-]. lia.
Qed.

Lemma digit_not_whiteSpace c d : digitValue c = Some d -> isWhiteSpace c = false.
Proof.
  intros Hd. apply digitValue_Some in Hd as [Hc _]. unfold isWhiteSpace.
  destruct (Z.leb_spec 9 (code c)), (Z.leb_spec (code c) 13),
    (Z.eqb_spec (code c) 32); cbn; try reflexivity; lia.
Qed.

Lemma mapM_digits_Forall l ds :
  mapM digitValue l = Some ds ->
  Forall (fun c => exists d, digitValue c = Some d) l.
Proof.
  intros Hl. apply mapM_Some in Hl.
  induction Hl; constructor; eauto.
Qed.

Lemma digit_not_whiteSpace2 c d b :
  digitValue c = Some d -> isWhiteSpace2 c b = false /\ isWhiteSpace2 b c = false.
Proof.
  intros Hd. apply digitValue_Some in Hd as [Hc _]. unfold isWhiteSpace2.
  destruct (Z.eqb_spec (code c) 194), (Z.eqb_spec (code c) 160); try lia;
    rewrite ?andb_false_r; split; reflexivity.
Qed.

Lemma digit_not_whiteSpace3 c d b b' :
  digitValue c = Some d ->
  isWhiteSpace3 c b b' = false /\ isWhiteSpace3 b' b c = false.
Proof.
  intros Hd. apply digitValue_Some in Hd as [Hc _]. unfold isWhiteSpace3.
  destruct (Z.eqb_spec (code c) 225), (Z.eqb_spec (code c) 226),
    (Z.eqb_spec (code c) 227), (Z.eqb_spec (code c) 239),
    (Z.eqb_spec (code c) 128), (Z.eqb_spec (code c) 159),
    (Z.eqb_spec (code c) 168), (Z.eqb_spec (code c) 169),
    (Z.eqb_spec (code c) 175), (Z.eqb_spec (code c) 191),
    (Z.leb_spec 128 (code c)); try lia;
    cbn [andb orb]; rewrite ?andb_false_r; split; reflexivity.
Qed.

Lemma dropWhiteSpace_digits l :
  Forall (fun c => exists d, digitValue c = Some d) l ->
  dropWhiteSpace l = l /\ dropWhiteSpaceBack l = l.
Proof.
  intros [|c l1 [d Hd] _]; [split; reflexivity|].
  cbn [dropWhiteSpace dropWhiteSpaceBack].
  rewrite (digit_not_whiteSpace c d Hd).
  destruct l1 as [|b l2]; [split; reflexivity|].
  destruct (digit_not_whiteSpace2 c d b Hd) as [-> ->].
  destruct l2 as [|b' l3]; [split; reflexivity|].
  destruct (digit_not_whiteSpace3 c d b b' Hd) as [-> ->].
  split; reflexivity.
Qed.

Lemma trimWhiteSpace_digits l :
  Forall (fun c => exists d, digitValue c = Some d) l -> trimWhiteSpace l = l.
Proof.
  intros Hl. unfold trimWhiteSpace.
  rewrite (proj1 (dropWhiteSpace_digits l Hl)).
  rewrite (proj2 (dropWhiteSpace_digits (rev l) (Forall_rev Hl))).
  apply rev_involutive.
Qed.

Lemma spanDigits_digits l ds :
  mapM digitValue l = Some ds -> spanDigits l = (ds, []).
Proof.
  revert ds. induction l as [|c l IH]; intros ds; cbn.
  - intros [= <-]. reflexivity.
  - destruct (digitValue c) as [d|]; [|discriminate]. cbn.
    destruct (mapM digitValue l) as [ds'|]; [|discriminate]. cbn.
    intros [= <-]. rewrite (IH ds' eq_refl). reflexivity.
Qed.

Lemma digitsValue_nonneg_from a ds :
  0 <= a -> Forall (fun d => 0 <= d) ds ->
  0 <= fold_left (fun a d => 10 * a + d) ds a.
Proof.
  intros Ha Hds. revert a Ha.
  induction Hds as [|d ds Hd _ IH]; intros a Ha; cbn; [assumption|].
  apply IH. lia.
Qed.

Lemma digitsValue_nonneg l ds :
  mapM digitValue l = Some ds -> 0 <= digitsValue 10 ds.
Proof.
  intros Hl. apply digitsValue_nonneg_from; [lia|].
  apply mapM_Some in Hl.
  induction Hl as [|c d l ds Hd _ IH]; constructor; [|assumption].
  apply digitValue_Some in Hd. lia.
Qed.

Lemma parseNonDecimal_digits l ds :
  mapM digitValue l = Some ds -> parseNonDecimal l = None.
Proof.
  intros Hl. apply mapM_digits_Forall in Hl.
  destruct Hl as [|z l' _ [|p l'' [d Hp] _]]; try reflexivity.
  apply digitValue_Some in Hp as [Hp _]. unfold parseNonDecimal.
  destruct (code z =? 48); [|reflexivity].
  destruct (Z.eqb_spec (code p) 120), (Z.eqb_spec (code p) 88),
    (Z.eqb_spec (code p) 111), (Z.eqb_spec (code p) 79),
    (Z.eqb_spec (code p) 98), (Z.eqb_spec (code p) 66); try lia.
  reflexivity.
Qed.

Lemma decimalNumber_integer m : 0 <= m -> decimalNumber false m 0 = JsInt m.
Proof.
  intros Hm. destruct m as [|p|p]; [reflexivity| |lia].
  unfold decimalNumber, JsInt, binary_normalize.
  change (0 <=? 0) with true. cbv iota.
  replace (Z.pos p * 10 ^ 0) with (Z.pos p) by (rewrite Z.pow_0_r; lia).
  reflexivity.
Qed.

(** *** Integers below 2^53 are numbers *)

Lemma digits2_pos_size p : digits2_pos p = Pos.size p.
Proof. induction p; cbn; congruence. Qed.

Lemma digits2_pos_bound p n :
  0 <= n -> Zpos p < 2 ^ n -> Zpos (digits2_pos p) <= n.
Proof.
  intros Hn Hp. rewrite digits2_pos_size.
  destruct (Z.le_gt_cases (Zpos (Pos.size p)) n) as [Hle|Hgt]; [assumption|].
  pose proof (Pos.size_le p) as Hs.
  assert (Hz : Zpos (2 ^ Pos.size p) <= Zpos p~0) by exact Hs.
  rewrite Pos2Z.inj_pow, Pos2Z.inj_xO in Hz.
  assert (2 ^ (n + 1) <= 2 ^ Zpos (Pos.size p)) by (apply Z.pow_le_mono_r; lia).
  rewrite Z.pow_add_r in * by lia. lia.
Qed.

Lemma iter_xO_value p k : Zpos (Pos.iter xO p k) = Zpos p * 2 ^ Zpos k.
Proof.
  induction k as [|k IH] using Pos.peano_ind.
  - cbn. lia.
  - rewrite Pos.iter_succ, Pos2Z.inj_succ, Z.pow_succ_r by lia.
    rewrite Pos2Z.inj_xO, IH. lia.
Qed.

Lemma iter_xO_digits p k :
  Zpos (digits2_pos (Pos.iter xO p k)) = Zpos (digits2_pos p) + Zpos k.
Proof.
  induction k as [|k IH] using Pos.peano_ind.
  - cbn. lia.
  - rewrite Pos.iter_succ. cbn [digits2_pos]. rewrite Pos2Z.inj_succ, IH. lia.
Qed.

(** A mantissa of 53 bits with an exponent in range is not rounded. *)
Lemma round_canonical m e :
  Zpos (digits2_pos m) = 53 -> -52 <= e <= 0 ->
  binary_round_aux prec64 emax64 false (Zpos m) e loc_Exact = S754_finite false m e.
Proof.
  intros Hd He. unfold binary_round_aux, shr_fexp.
  cbn [Zdigits2 shr_record_of_loc]. rewrite Hd.
  assert (Hf : fexp prec64 emax64 (53 + e) - e = 0)
    by (unfold fexp, emin, prec64, emax64; lia).
  rewrite Hf.
  cbn [shr shr_m loc_of_shr_record round_nearest_even Zdigits2 shr_record_of_loc].
  rewrite Hd, Hf. cbn [shr shr_m].
  destruct (Z.leb_spec e (emax64 - prec64)); [reflexivity|].
  unfold emax64, prec64 in *. lia.
Qed.

(** The number of an integer below 2^53 is that integer. *)
Lemma JsInt_exact z : 0 <= z < 2 ^ 53 -> integerValue (JsInt z) = Some z.
Proof.
  intros Hz. destruct z as [|p|p]; [reflexivity| |lia].
  pose proof (digits2_pos_bound p 53 ltac:(lia) ltac:(lia)) as Hd.
  unfold JsInt, binary_normalize, binary_round, shl_align.
  assert (Hf : fexp prec64 emax64 (Zpos (digits2_pos p) + 0) - 0
               = Zpos (digits2_pos p) - 53)
    by (unfold fexp, emin, prec64, emax64; lia).
  rewrite Hf.
  destruct (Zpos (digits2_pos p) - 53) as [|k|k] eqn:Ek; [|lia|].
  - replace (fexp prec64 emax64 (Zpos (digits2_pos p) + 0)) with 0
      by (unfold fexp, emin, prec64, emax64; lia).
    rewrite round_canonical by lia.
    unfold integerValue. change (0 <=? 0) with true. cbv iota.
    rewrite Z.pow_0_r. f_equal; lia.
  - replace (fexp prec64 emax64 (Zpos (digits2_pos p) + 0)) with (Zneg k)
      by (unfold fexp, emin, prec64, emax64; lia).
    rewrite round_canonical; [|rewrite iter_xO_digits; lia|lia].
    unfold integerValue. rewrite iter_xO_value.
    change (- Zneg k) with (Zpos k).
    destruct (Z.leb_spec 0 (Zneg k)); [lia|].
    rewrite Z.mod_mul by lia. change (0 =? 0) with true. cbv iota.
    rewrite Z.div_mul by lia. f_equal; lia.
Qed.

(** [Number] of a non-empty string of decimal digits is the integer the
    digits denote (rounded to the nearest number when it needs more than 53
    bits). *)
Lemma StringToNumber_digits s ds :
  decimalDigits s = Some ds -> ds <> [] ->
  StringToNumber s = JsInt (digitsValue 10 ds).
Proof.
  unfold decimalDigits, StringToNumber. intros Hl Hne.
  rewrite (trimWhiteSpace_digits _ (mapM_digits_Forall _ _ Hl)).
  pose proof (spanDigits_digits _ _ Hl) as Hspan.
  pose proof (parseNonDecimal_digits _ _ Hl) as Hnd.
  pose proof (digitsValue_nonneg _ _ Hl) as Hpos.
  destruct (list_ascii_of_string s) as [|c l] eqn:El.
  - apply mapM_Some in Hl. inversion Hl; subst. congruence.
  - rewrite Hnd. unfold parseStrDecimalLiteral.
    assert (Hc : 48 <= code c <= 57).
    { apply mapM_digits_Forall in Hl. inversion Hl as [|? ? [d Hd] ?]; subst.
      apply digitValue_Some in Hd. lia. }
    destruct (Z.eqb_spec (code c) 43); [lia|].
    destruct (Z.eqb_spec (code c) 45); [lia|].
    destruct (decide (c :: l = list_ascii_of_string "Infinity")) as [Hinf|_].
    { injection Hinf as -> _. vm_compute in Hc. destruct Hc as [_ Hc].
      exfalso. apply Hc. reflexivity. }
    unfold parseUnsignedDecimal. rewrite Hspan.
    destruct ds as [|d ds]; [congruence|].
    apply decimalNumber_integer. assumption.
Qed.

(** ** Running the handlers *)

Section Handlers.
Context `{Host}.

(** Names the answer to the next external call of the goal. *)
Ltac answer_call :=
  match goal with
  | |- context [respond ?X ?c ?w] =>
      let x := fresh "x" in
      let w' := fresh "w" in
      destruct (respond X c w) as [x w'] eqn:?
  end.

Ltac run_handler :=
  unfold bind, call, lift, ret, setForm, setRepairs, setLoading, setUI, getForm in *;
  cbn [fst snd ui world calls loading repairs form] in *.

Lemma Date_of_fields_modern y m dt :
  ~ (0 <= y <= 99) ->
  Date_of_fields y m dt = TimeClip (UTC (MakeDate (MakeDay y m dt) 0)).
Proof.
  intros Hy. unfold Date_of_fields.
  destruct (Z.leb_spec 0 y), (Z.leb_spec y 99); cbn [andb]; try reflexivity; lia.
Qed.

(** C6. [filterRepairs("lastMonth")], for a clock whose local year is not
    one of the two-digit years 0..99 (which the Date constructor reads as
    19xx): the lower bound [lo] is 00:00 local time of day 1 of the previous
    calendar month, the upper bound [hi] is 00:00 local time of the last day
    of that month, the day before day 1 of the current month; the query sent
    to the store carries them as [gte] and [lte] (both inclusive) filters on
    [date_sold], as ISO strings of the corresponding UTC instants. *)
Theorem filterRepairs_lastMonth_bounds (st : St) :
  let now := fst (respond Z Date_now (world st)) in
  let y := getFullYear now in
  let m := getMonth now in
  let py := if m =? 0 then y - 1 else y in
  let pm := if m =? 0 then 11 else m - 1 in
  let lo := MakeDate (MakeDay py pm 1) 0 in
  let hi := MakeDate (MakeDay py pm (DaysInMonth py pm)) 0 in
  ~ (0 <= y <= 99) ->
  (YearFromTime lo = py /\ MonthFromTime lo = pm /\ DateFromTime lo = 1
   /\ TimeWithinDay lo = 0)
  /\ (YearFromTime hi = py /\ MonthFromTime hi = pm
      /\ DateFromTime hi = DaysInMonth py pm /\ TimeWithinDay hi = 0)
  /\ (YearFromTime (hi + msPerDay) = y /\ MonthFromTime (hi + msPerDay) = m
      /\ DateFromTime (hi + msPerDay) = 1 /\ TimeWithinDay (hi + msPerDay) = 0)
  /\ forall slo shi : string,
       toISOString (TimeClip (UTC lo)) = Done slo ->
       toISOString (TimeClip (UTC hi)) = Done shi ->
       exists r : Response,
         calls (snd (filterRepairs "lastMonth" st))
         = (calls st ++
            [ Called Date_now now;
              Called (db_select {| from := "repairs"; select := "*";
                                   filters := [gte "date_sold" slo; lte "date_sold" shi];
                                   order := Some ("date_sold", false) |}) r ])%list.
Proof.
  intros now y m py pm lo hi Hy.
  assert (Hm : 0 <= m <= 11) by apply MonthFromTime_range.
  assert (Hpm : 0 <= pm <= 11) by (subst pm; destruct (Z.eqb_spec m 0); lia).
  pose proof (DaysInMonth_pos py pm Hpm) as Hdim.
  assert (Hhi : hi + msPerDay = MakeDate (MakeDay y m 1) 0).
  { subst hi py pm. rewrite <- MakeDay_day_zero by assumption.
    unfold MakeDate, MakeDay. lia. }
  split; [apply fields_of_MakeDay; unfold msPerDay; lia|].
  split; [apply fields_of_MakeDay; unfold msPerDay; lia|].
  split.
  { rewrite Hhi. apply fields_of_MakeDay; try assumption; [|unfold msPerDay; lia].
    pose proof (DaysInMonth_pos y m Hm). lia. }
  intros slo shi Hlo Hshi.
  unfold filterRepairs, bind, call, lift, ret, setRepairs, setUI.
  subst now y m. destruct (respond Z Date_now (world st)) as [now w1].
  cbn [fst snd world ui calls String.eqb Ascii.eqb Bool.eqb] in *.
  rewrite !Date_of_fields_modern by assumption.
  rewrite MakeDay_previous_month, MakeDay_day_zero by assumption.
  fold py pm lo hi. rewrite Hlo, Hshi.
  cbn [addFilter orderBy from select filters order app]. run_handler.
  answer_call. exists x. run_handler. rewrite <- app_assoc. reflexivity.
Qed.

(** C8. The session guard: without a session, [init] asks for the session,
    navigates to the login view and does nothing else (no query, no state
    change); with a session, the next call is the listing query, and it is
    the only query of the activation. *)
Theorem init_session_guard (st : St) :
  match fst (respond _ auth_getSession (world st)) with
  | None =>
      ui (snd (init st)) = ui st
      /\ calls (snd (init st))
         = (calls st ++ [ Called auth_getSession None;
                          Called (router_push "/login") tt ])%list
      /\ existsb isSelect [ Called auth_getSession None;
                            Called (router_push "/login") tt ] = false
  | Some s =>
      exists (r : Response) (rest : list Call),
        calls (snd (init st))
        = (calls st ++ Called auth_getSession (Some s)
                       :: Called (db_select listing) r :: rest)%list
        /\ existsb isSelect rest = false
  end.
Proof.
  unfold init. run_handler. answer_call. run_handler.
  destruct x as [s|]; run_handler.
  - answer_call. run_handler. exists x.
    destruct (error x) as [e|]; run_handler.
    + answer_call. run_handler. destruct x0.
      eexists. rewrite <- !app_assoc. split; reflexivity.
    + exists []. rewrite <- !app_assoc. split; reflexivity.
  - answer_call. destruct x. run_handler.
    rewrite <- !app_assoc. repeat split; reflexivity.
Qed.

(** C7. Manual submit: when the insert succeeds the form is reset to its
    default values; when it fails the message of the error is shown in an
    alert, which is the last thing the handler does, and the state of the
    view (the form included) is what it was. *)
Theorem handleSubmit_outcome (st : St) :
  let w1 := snd (respond unit preventDefault (world st)) in
  let record :=
    {| item_name := form_item_name (form (ui st));
       listing_id := form_listing_id (form (ui st));
       date_sold := form_date_sold (form (ui st));
       quantity := form_quantity (form (ui st));
       notes := Some (form_notes (form (ui st)));
       price := Number (inl (form_price (form (ui st))));
       source := manual |} in
  let st' := snd (handleSubmit st) in
  match fst (respond _ (db_insert "repairs" [record]) w1) with
  | None =>
      form (ui st')
      = {| form_item_name := ""; form_listing_id := ""; form_price := "";
           form_date_sold := ""; form_quantity := JsInt 1; form_notes := "" |}
  | Some e =>
      ui st' = ui st
      /\ calls st'
         = (calls st ++ [ Called preventDefault tt;
                          Called (db_insert "repairs" [record]) (Some e);
                          Called (window_alert (message e)) tt ])%list
  end.
Proof.
  intros w1 record st'. subst w1 st'. unfold handleSubmit. run_handler.
  destruct (respond unit preventDefault (world st)) as [[] w1]. run_handler.
  fold record. destruct (respond _ (db_insert "repairs" [record]) w1) as [[e|] w2];
    run_handler.
  - answer_call. destruct x. run_handler.
    rewrite <- !app_assoc. destruct (ui st). split; reflexivity.
  - unfold refreshRepairs. run_handler. answer_call. run_handler.
    destruct (error x); reflexivity.
Qed.

(** C9. A period filter whose query was sent: the handler made two calls,
    the clock and the query, and the displayed list is the [data] of the
    answer, or empty when the answer has none (the store reported an error);
    nothing is shown to the user.  A filter that raised before its query
    left the list as it was. *)
Theorem filterRepairs_null_data (period : string) (st : St) :
  match filterRepairs period st with
  | (Done _, st') =>
      exists (now : Z) (q : Query) (r : Response),
        calls st' = (calls st ++ [Called Date_now now; Called (db_select q) r])%list
        /\ repairs (ui st') = orEmpty (data r)
        /\ (data r = None -> repairs (ui st') = [])
  | (Thrown _, st') =>
      ui st' = ui st
      /\ exists now : Z, calls st' = (calls st ++ [Called Date_now now])%list
  end.
Proof.
  unfold filterRepairs. run_handler. answer_call. run_handler.
  assert (Hsend : forall q : Query,
    match bind (call (db_select q)) (fun r => setRepairs (orEmpty (data r)))
            {| ui := ui st; world := w; calls := calls st ++ [Called Date_now x] |} with
    | (Done _, st') =>
        exists (now : Z) (q : Query) (r : Response),
          calls st' = (calls st ++ [Called Date_now now; Called (db_select q) r])%list
          /\ repairs (ui st') = orEmpty (data r)
          /\ (data r = None -> repairs (ui st') = [])
    | (Thrown _, st') =>
        ui st' = ui st
        /\ exists now : Z, calls st' = (calls st ++ [Called Date_now now])%list
    end).
  { intros q. run_handler. answer_call. run_handler.
    exists x, q, x0. rewrite <- app_assoc.
    repeat split. intros ->. reflexivity. }
  destruct (String.eqb period "thisMonth");
    destruct (String.eqb period "lastMonth");
    destruct (String.eqb period "thisYear");
    repeat match goal with
           | |- context [toISOString ?d] => destruct (toISOString d); run_handler
           end;
    try apply Hsend; split; eauto.
Qed.

(** ** The CSV import *)

Lemma truthy_missing v : missing v -> truthy v = false.
Proof. intros [->| ->]; reflexivity. Qed.

Lemma truthy_Some v : truthy v = true -> exists s, v = Some s /\ s <> "".
Proof.
  destruct v as [s|]; [|discriminate]. cbn. intros Hs. exists s. split; [reflexivity|].
  intros ->. discriminate.
Qed.

(** The one exception the row callback can raise. *)
Lemma normalizeRow_Thrown row e :
  normalizeRow row = Thrown e -> e = RangeError "Invalid time value".
Proof.
  unfold normalizeRow.
  destruct (_ || _); [discriminate|].
  unfold toISOString. destruct (Date_of_value _); [discriminate|].
  congruence.
Qed.

Lemma mapRows_app l1 l2 :
  mapRows (l1 ++ l2)
  = match mapRows l1 with
    | Thrown e => Thrown e
    | Done rs1 => match mapRows l2 with
                  | Thrown e => Thrown e
                  | Done rs2 => Done (rs1 ++ rs2)
                  end
    end.
Proof.
  induction l1 as [|a l1 IH]; cbn.
  - destruct (mapRows l2); reflexivity.
  - destruct (normalizeRow a); [|reflexivity].
    rewrite IH. destruct (mapRows l1); [|reflexivity].
    destruct (mapRows l2); reflexivity.
Qed.

Lemma omap_id_app {A : Type} (l1 l2 : list (option A)) :
  omap (fun r => r) (l1 ++ l2) = (omap (fun r => r) l1 ++ omap (fun r => r) l2)%list.
Proof.
  induction l1 as [|[a|] l1 IH]; cbn; [reflexivity| |assumption].
  f_equal. exact IH.
Qed.

(** The batch of a concatenation is the concatenation of the batches. *)
Lemma normalizeRows_app l1 l2 :
  normalizeRows (l1 ++ l2)
  = match normalizeRows l1 with
    | Thrown e => Thrown e
    | Done b1 => match normalizeRows l2 with
                 | Thrown e => Thrown e
                 | Done b2 => Done (b1 ++ b2)%list
                 end
    end.
Proof.
  unfold normalizeRows. rewrite mapRows_app.
  destruct (mapRows l1); [|reflexivity].
  destruct (mapRows l2); [|reflexivity].
  rewrite omap_id_app. reflexivity.
Qed.

Lemma normalizeRows_cons row l :
  normalizeRows (row :: l)
  = match normalizeRow row with
    | Thrown e => Thrown e
    | Done r => match normalizeRows l with
                | Thrown e => Thrown e
                | Done b => Done (match r with Some x => x :: b | None => b end)
                end
    end.
Proof.
  unfold normalizeRows. cbn.
  destruct (normalizeRow row) as [[x|]|]; try reflexivity;
    destruct (mapRows l); reflexivity.
Qed.

(** C2. A row whose "Order number", "Item title" or "Total price" is missing
    or empty: the callback returns [null] for it without raising, and the
    import behaves as if the row were not in the file: same batch, same
    calls, same outcome. *)
Theorem discarded_row_excluded (row : Row) (pre post : list Row) (st : St) :
  missing (row !! "Order number") \/ missing (row !! "Item title")
  \/ missing (row !! "Total price") ->
  normalizeRow row = Done None
  /\ normalizeRows (pre ++ row :: post) = normalizeRows (pre ++ post)
  /\ complete (pre ++ row :: post) st = complete (pre ++ post) st.
Proof.
  intros Hmiss.
  assert (Hrow : normalizeRow row = Done None).
  { unfold normalizeRow.
    destruct Hmiss as [Hm|[Hm|Hm]]; rewrite (truthy_missing _ Hm); cbn [negb orb];
      rewrite ?orb_true_r; reflexivity. }
  assert (Hbatch : normalizeRows (pre ++ row :: post) = normalizeRows (pre ++ post)).
  { rewrite !normalizeRows_app, normalizeRows_cons, Hrow.
    destruct (normalizeRows pre); [|reflexivity].
    destruct (normalizeRows post); reflexivity. }
  repeat split; try assumption.
  unfold complete. rewrite Hbatch. reflexivity.
Qed.

(** A record dated exactly at a bound passes a [gte] and an [lte] filter of
    the in-memory store. *)
Lemma satisfies_at_bound (c v : string) (s : StoredRepair) :
  date_sold (columns s) = v ->
  satisfies (gte c v) s = true /\ satisfies (lte c v) s = true.
Proof.
  intros <-. cbn. destruct (String.leb_total (date_sold (columns s)) (date_sold (columns s)));
    split; assumption.
Qed.

(** An import whose rows normalize sends one write to the store: the upsert
    of the whole batch, with [listing_id] as the conflict key. *)
Lemma complete_calls rows batch st :
  normalizeRows rows = Done batch ->
  exists (e : option PostgrestError) (rest : list Call),
    calls (snd (complete rows st))
    = calls st ++ Called (db_upsert "repairs" batch ["listing_id"]) e :: rest
    /\ existsb isWrite rest = false.
Proof.
  intros Hbatch. unfold complete. rewrite Hbatch. run_handler.
  answer_call. run_handler. exists x. destruct x as [e|]; run_handler.
  - answer_call. run_handler. destruct x.
    eexists. rewrite <- app_assoc. split; reflexivity.
  - answer_call. destruct x. unfold refreshRepairs. run_handler.
    answer_call. run_handler.
    eexists. destruct (error x); run_handler; rewrite <- !app_assoc;
      split; reflexivity.
Qed.

(** C3. The import scenario: of the three rows the first and the third are
    kept, in that order, with the prices 10 and 20, the quantities 2 and 1
    (the default), the source [csv] and the sale dates as ISO timestamps of
    midnight UTC; that batch is what the handler sends to the store.  The
    price text "$42.50" reads as 42.5. *)
Theorem import_scenario (st : St) :
  let batch :=
    [ {| listing_id := "1001"; item_name := "Widget"; price := JsInt 10;
         date_sold := "2024-01-05T00:00:00.000Z"; quantity := JsInt 2;
         notes := None; source := csv |};
      {| listing_id := "1002"; item_name := "Gadget"; price := JsInt 20;
         date_sold := "2024-02-01T00:00:00.000Z"; quantity := JsInt 1;
         notes := None; source := csv |} ] in
  normalizeRows [row1001; rowBad; row1002] = Done batch
  /\ (exists (e : option PostgrestError) (rest : list Call),
        calls (snd (complete [row1001; rowBad; row1002] st))
        = calls st ++ Called (db_upsert "repairs" batch ["listing_id"]) e :: rest)
  /\ Number (inl (replaceDollar "$42.50")) = decimalNumber false 425 (-1).
Proof.
  intros batch.
  assert (Hbatch : normalizeRows [row1001; rowBad; row1002] = Done batch)
    by (vm_compute; reflexivity).
  split; [exact Hbatch|]. split; [|vm_compute; reflexivity].
  destruct (complete_calls _ _ st Hbatch) as (e & rest & Hcalls & _).
  exists e, rest. exact Hcalls.
Qed.

(** C4. A row that passes the validity gate and whose "Sale date" does not
    parse (the Date is invalid): [toISOString] raises a RangeError in the
    row callback, whatever the other rows are; the import ends there, with
    no call to the store and no message to the user. *)
Theorem unparseable_date_aborts_import (row : Row) (pre post : list Row) (st : St) :
  truthy (row !! "Order number") = true ->
  truthy (row !! "Item title") = true ->
  truthy (row !! "Total price") = true ->
  Date_of_value (row !! "Sale date") = None ->
  normalizeRow row = Thrown (RangeError "Invalid time value")
  /\ normalizeRows (pre ++ row :: post) = Thrown (RangeError "Invalid time value")
  /\ complete (pre ++ row :: post) st = (Thrown (RangeError "Invalid time value"), st).
Proof.
  intros Ho Ht Hp Hd.
  assert (Hrow : normalizeRow row = Thrown (RangeError "Invalid time value")).
  { unfold normalizeRow. rewrite Ho, Ht, Hp, Hd. reflexivity. }
  assert (Hbatch : normalizeRows (pre ++ row :: post)
                   = Thrown (RangeError "Invalid time value")).
  { induction pre as [|a pre IH]; cbn [app]; rewrite normalizeRows_cons.
    - rewrite Hrow. reflexivity.
    - rewrite IH. destruct (normalizeRow a) eqn:Ea; [reflexivity|].
      apply normalizeRow_Thrown in Ea. congruence. }
  repeat split; try assumption.
  unfold complete. rewrite Hbatch. reflexivity.
Qed.

(** What a kept row becomes. *)
Lemma normalizeRow_Done row rec :
  normalizeRow row = Done (Some rec) ->
  truthy (row !! "Order number") = true
  /\ truthy (row !! "Item title") = true
  /\ truthy (row !! "Total price") = true
  /\ row !! "Order number" = Some (listing_id rec)
  /\ quantity rec = Number (orNumber (row !! "Quantity") (JsInt 1)).
Proof.
  unfold normalizeRow.
  destruct (truthy (row !! "Order number")) eqn:Ho; [|discriminate].
  destruct (truthy (row !! "Item title")) eqn:Ht; [|discriminate].
  destruct (truthy (row !! "Total price")) eqn:Hp; [|discriminate].
  cbn [negb orb].
  destruct (toISOString _); [|discriminate].
  intros [= <-]. cbn [listing_id quantity].
  apply truthy_Some in Ho as (s & -> & _). repeat split; reflexivity.
Qed.

(** C5 (as amended). The quantity of a kept row is [Number] of the
    "Quantity" field: exactly 1 when the field is absent or empty, the
    numeric conversion of its text otherwise, which for a text made of
    decimal digits is the number nearest to the integer it denotes, and that
    integer itself when it is below 2^53. *)
Theorem quantity_is_Number_of_field (row : Row) (rec : Repair) :
  normalizeRow row = Done (Some rec) ->
  (missing (row !! "Quantity") -> quantity rec = JsInt 1)
  /\ (forall s : string,
        row !! "Quantity" = Some s -> s <> "" -> quantity rec = StringToNumber s)
  /\ (forall (s : string) (ds : list Z),
        row !! "Quantity" = Some s -> decimalDigits s = Some ds -> ds <> [] ->
        quantity rec = JsInt (digitsValue 10 ds))
  /\ (forall (s : string) (ds : list Z),
        row !! "Quantity" = Some s -> decimalDigits s = Some ds -> ds <> [] ->
        digitsValue 10 ds < 2 ^ 53 ->
        integerValue (quantity rec) = Some (digitsValue 10 ds)).
Proof.
  intros Hrow. apply normalizeRow_Done in Hrow as (_ & _ & _ & _ & ->).
  assert (Htext : forall s : string,
    row !! "Quantity" = Some s -> s <> "" ->
    Number (orNumber (row !! "Quantity") (JsInt 1)) = StringToNumber s).
  { intros s -> Hs. unfold orNumber, truthy.
    apply String.eqb_neq in Hs. rewrite Hs. reflexivity. }
  assert (Hdigits : forall (s : string) (ds : list Z),
    row !! "Quantity" = Some s -> decimalDigits s = Some ds -> ds <> [] ->
    Number (orNumber (row !! "Quantity") (JsInt 1)) = JsInt (digitsValue 10 ds)).
  { intros s ds Hq Hds Hne. rewrite (Htext s Hq).
    - apply StringToNumber_digits; assumption.
    - intros ->. unfold decimalDigits in Hds. apply mapM_Some in Hds.
      inversion Hds; subst. congruence. }
  split; [|split; [|split]].
  - intros [->| ->]; reflexivity.
  - exact Htext.
  - exact Hdigits.
  - intros s ds Hq Hds Hne Hsmall. rewrite (Hdigits s ds Hq Hds Hne).
    apply JsInt_exact. split; [|assumption].
    exact (digitsValue_nonneg _ _ Hds).
Qed.

(** ** The upsert of the spec *)

Lemma existsb_hasListing k tbl : existsb (hasListing k) tbl = true <-> k ∈ keys tbl.
Proof.
  unfold keys. rewrite existsb_exists, list_elem_of_fmap. unfold hasListing.
  split.
  - intros (s & Hin & Heq). apply String.eqb_eq in Heq.
    exists s. split; [congruence|]. apply list_elem_of_In. assumption.
  - intros (s & -> & Hin). exists s. split; [apply list_elem_of_In; assumption|].
    apply String.eqb_refl.
Qed.

Lemma filter_hasListing_absent k tbl :
  k ∉ keys tbl -> List.filter (hasListing k) tbl = [].
Proof.
  induction tbl as [|s tbl IH]; [reflexivity|].
  cbn. rewrite not_elem_of_cons. intros [Hne Hnin].
  unfold hasListing at 1. destruct (String.eqb_spec (listing_id (columns s)) k);
    [congruence|]. apply IH. assumption.
Qed.

(** The overwrite keeps every key where it was. *)
Lemma keys_overwrite r tbl :
  keys (map (fun s => if hasListing (listing_id r) s
                      then {| stored_id := stored_id s; columns := r |} else s) tbl)
  = keys tbl.
Proof.
  unfold keys. rewrite map_map. apply map_ext. intros s.
  unfold hasListing. destruct (String.eqb_spec (listing_id (columns s)) (listing_id r));
    [cbn; congruence|reflexivity].
Qed.

Lemma keys_upsertRow_NoDup tbl r : NoDup (keys tbl) -> NoDup (keys (upsertRow tbl r)).
Proof.
  intros Hnd. unfold upsertRow.
  destruct (existsb (hasListing (listing_id r)) tbl) eqn:Eex.
  - rewrite keys_overwrite. assumption.
  - unfold keys. rewrite map_app. apply NoDup_app. repeat split.
    + exact Hnd.
    + intros k Hk. cbn. rewrite list_elem_of_singleton. intros ->.
      apply existsb_hasListing in Hk. congruence.
    + cbn. apply NoDup_singleton.
Qed.

Lemma keys_upsert_NoDup batch tbl : NoDup (keys tbl) -> NoDup (keys (upsert batch tbl)).
Proof.
  unfold upsert. revert tbl.
  induction batch as [|r batch IH]; intros tbl Hnd; cbn; [assumption|].
  apply IH, keys_upsertRow_NoDup, Hnd.
Qed.

(** After the write of [r], the table has one record with its key, and the
    columns of that record are [r]. *)
Lemma filter_hasListing_upsertRow_same tbl r :
  NoDup (keys tbl) ->
  exists s, List.filter (hasListing (listing_id r)) (upsertRow tbl r) = [s]
            /\ columns s = r.
Proof.
  intros Hnd. unfold upsertRow.
  destruct (existsb (hasListing (listing_id r)) tbl) eqn:Eex.
  - apply existsb_hasListing in Eex.
    induction tbl as [|s tbl IH]; [inversion Eex|].
    cbn in Hnd. apply NoDup_cons in Hnd as [Hnin Hnd].
    cbn [map List.filter].
    destruct (hasListing (listing_id r) s) eqn:Es.
    + unfold hasListing at 1. cbn [columns]. rewrite String.eqb_refl.
      exists {| stored_id := stored_id s; columns := r |}.
      split; [|reflexivity]. f_equal.
      apply filter_hasListing_absent. rewrite keys_overwrite.
      unfold hasListing in Es. apply String.eqb_eq in Es. fold (keys tbl) in Hnin.
      congruence.
    + rewrite Es. apply IH; [assumption|].
      cbn in Eex. apply elem_of_cons in Eex as [Heq|Hin]; [|assumption].
      unfold hasListing in Es. apply String.eqb_neq in Es. congruence.
  - rewrite List.filter_app, filter_hasListing_absent.
    + cbn. unfold hasListing. cbn. rewrite String.eqb_refl.
      eexists. split; reflexivity.
    + intros Hin. apply existsb_hasListing in Hin. congruence.
Qed.

(** The write of a row with another key leaves the records of [k] alone. *)
Lemma filter_hasListing_upsertRow_other tbl r k :
  listing_id r <> k ->
  List.filter (hasListing k) (upsertRow tbl r) = List.filter (hasListing k) tbl.
Proof.
  intros Hne. unfold upsertRow.
  destruct (existsb (hasListing (listing_id r)) tbl).
  - induction tbl as [|s tbl IH]; [reflexivity|].
    cbn [map List.filter]. rewrite IH.
    destruct (hasListing (listing_id r) s) eqn:Es; [|reflexivity].
    unfold hasListing in *. cbn [columns]. apply String.eqb_eq in Es.
    destruct (String.eqb_spec (listing_id r) k); [congruence|].
    destruct (String.eqb_spec (listing_id (columns s)) k); [congruence|].
    reflexivity.
  - rewrite List.filter_app. cbn. unfold hasListing at 2. cbn.
    destruct (String.eqb_spec (listing_id r) k); [congruence|].
    apply app_nil_r.
Qed.

Lemma filter_hasListing_upsert_other batch tbl k :
  Forall (fun r => listing_id r <> k) batch ->
  List.filter (hasListing k) (upsert batch tbl) = List.filter (hasListing k) tbl.
Proof.
  unfold upsert. intros Hb. revert tbl.
  induction Hb as [|r batch Hr _ IH]; intros tbl; cbn; [reflexivity|].
  rewrite IH. apply filter_hasListing_upsertRow_other. assumption.
Qed.

(** The last record of a batch with a given key is the one that stays. *)
Lemma upsert_last_wins b1 rec b2 :
  Forall (fun r => listing_id r <> listing_id rec) b2 ->
  exists s, List.filter (hasListing (listing_id rec)) (upsert (b1 ++ rec :: b2) []) = [s]
            /\ columns s = rec.
Proof.
  intros Hb2. unfold upsert. rewrite fold_left_app. cbn [fold_left].
  fold (upsert b1 []). fold (upsert b2 (upsertRow (upsert b1 []) rec)).
  rewrite filter_hasListing_upsert_other by assumption.
  apply filter_hasListing_upsertRow_same, keys_upsert_NoDup. constructor.
Qed.

Lemma normalizeRows_keys k rows batch :
  Forall (fun row : Row => row !! "Order number" <> Some k) rows ->
  normalizeRows rows = Done batch ->
  Forall (fun r => listing_id r <> k) batch.
Proof.
  intros Hrows. revert batch.
  induction Hrows as [|row rows Hrow _ IH]; intros batch.
  - intros [= <-]. constructor.
  - rewrite normalizeRows_cons.
    destruct (normalizeRow row) as [[rec|]|] eqn:Er; [| |discriminate];
      (destruct (normalizeRows rows) as [b|]; [|discriminate]); intros [= <-].
    + constructor; [|apply IH; reflexivity].
      apply normalizeRow_Done in Er as (_ & _ & _ & Hk & _). congruence.
    + apply IH. reflexivity.
Qed.

(** C1. Two rows of an import with the same "Order number" [k], the later
    one kept by the validity gate and no row after it with that order
    number: the import sends its whole batch as one upsert on the conflict
    key [listing_id] (and no other write), and that upsert, applied to an
    empty store, leaves exactly one record with [listing_id] [k], whose
    columns are those of the later row. *)
Theorem upsert_identical_order_numbers
    (pre mid post : list Row) (r1 r2 : Row) (k : string)
    (rec2 : Repair) (batch : list Repair) (st : St) :
  r1 !! "Order number" = Some k ->
  r2 !! "Order number" = Some k ->
  Forall (fun row : Row => row !! "Order number" <> Some k) post ->
  normalizeRow r2 = Done (Some rec2) ->
  normalizeRows (pre ++ r1 :: mid ++ r2 :: post) = Done batch ->
  (exists (e : option PostgrestError) (rest : list Call),
     calls (snd (complete (pre ++ r1 :: mid ++ r2 :: post) st))
     = calls st ++ Called (db_upsert "repairs" batch ["listing_id"]) e :: rest
     /\ existsb isWrite rest = false)
  /\ exists s : StoredRepair,
       List.filter (hasListing k) (upsert batch []) = [s] /\ columns s = rec2.
Proof.
  intros Hk1 Hk2 Hpost Hr2 Hbatch. split; [apply complete_calls, Hbatch|].
  assert (Hk : listing_id rec2 = k).
  { apply normalizeRow_Done in Hr2 as (_ & _ & _ & Hk & _). congruence. }
  change (pre ++ r1 :: mid ++ r2 :: post)
    with (pre ++ (r1 :: mid) ++ r2 :: post) in Hbatch.
  rewrite app_assoc, normalizeRows_app, normalizeRows_cons, Hr2 in Hbatch.
  destruct (normalizeRows (pre ++ r1 :: mid)) as [b1|]; [|discriminate].
  destruct (normalizeRows post) as [b2|] eqn:Eb2; [|discriminate].
  injection Hbatch as <-. subst k.
  apply upsert_last_wins. eapply normalizeRows_keys; eassumption.
Qed.

(** ** The quantity of manual entries *)

Lemma keeps_ret {A : Type} (a : A) : keeps (ret a).
Proof. intros st Hst. exact Hst. Qed.

Lemma keeps_lift {A : Type} (o : Outcome A) : keeps (lift o).
Proof. intros st Hst. exact Hst. Qed.

Lemma keeps_bind {A B : Type} (m : M A) (k : A -> M B) :
  keeps m -> (forall a, keeps (k a)) -> keeps (bind m k).
Proof.
  intros Hm Hk st Hst. unfold bind. specialize (Hm st Hst).
  destruct (m st) as [[a|e] st']; cbn [snd] in *; [apply Hk|]; assumption.
Qed.

Lemma keeps_getForm_bind {B : Type} (k : Form -> M B) :
  (forall f, form_quantity f = JsInt 1 -> keeps (k f)) -> keeps (bind getForm k).
Proof.
  intros Hk st Hst. unfold bind, getForm. apply Hk; [apply Hst|assumption].
Qed.

Lemma keeps_call {X : Type} (c : Ext X) :
  (forall x, insertsQuantityOne (Called c x)) -> keeps (call c).
Proof.
  intros Hc st [Hq Hcalls]. unfold call.
  destruct (respond X c (world st)) as [x w]. split; [exact Hq|].
  cbn [snd calls]. apply Forall_app. split; [assumption|].
  constructor; [apply Hc|constructor].
Qed.

Lemma keeps_setForm f : form_quantity f = JsInt 1 -> keeps (setForm f).
Proof. intros Hf st [_ Hcalls]. split; assumption. Qed.

Lemma keeps_setRepairs l : keeps (setRepairs l).
Proof. intros st Hst. exact Hst. Qed.

Lemma keeps_setLoading b : keeps (setLoading b).
Proof. intros st Hst. exact Hst. Qed.

Ltac keeps_step :=
  first [ apply keeps_getForm_bind; intros ? ?
        | apply keeps_bind; [|intros ?]
        | apply keeps_ret | apply keeps_lift
        | apply keeps_setRepairs | apply keeps_setLoading
        | apply keeps_setForm; cbn [form_quantity]; first [assumption|reflexivity]
        | apply keeps_call; intros ?; exact I
        | match goal with
          | |- keeps (match ?x with _ => _ end) => destruct x
          | |- keeps (if ?b then _ else _) => destruct b
          end ].

Lemma keeps_refreshRepairs : keeps refreshRepairs.
Proof. unfold refreshRepairs. repeat keeps_step. Qed.

Lemma keeps_handleSubmit : keeps handleSubmit.
Proof.
  unfold handleSubmit. keeps_step; [repeat keeps_step|].
  keeps_step. keeps_step.
  - apply keeps_call. intros x. cbn. constructor; [assumption|constructor].
  - repeat first [apply keeps_refreshRepairs|keeps_step].
Qed.

Lemma keeps_handler ev : keeps (handler ev).
Proof.
  destruct ev; cbn [handler];
    try (unfold init, handleCSV, complete, filterRepairs, logout;
         solve [repeat first [apply keeps_refreshRepairs|keeps_step]]).
  apply keeps_handleSubmit.
Qed.

(** C10. From the first render on, whatever the user does and whatever the
    outside world answers, the quantity of the form is 1 and every row of
    every insert (the manual path is the only one that inserts) carries
    quantity 1. *)
Theorem manual_entries_quantity_one (w : World) (evs : list UIEvent) :
  let st := run evs {| ui := initialUI; world := w; calls := [] |} in
  form_quantity (form (ui st)) = JsInt 1
  /\ Forall insertsQuantityOne (calls st).
Proof.
  cbv zeta. change (Inv (run evs {| ui := initialUI; world := w; calls := [] |})).
  assert (Hstart : Inv {| ui := initialUI; world := w; calls := [] |})
    by (split; [reflexivity|constructor]).
  revert Hstart. generalize {| ui := initialUI; world := w; calls := [] |}.
  unfold run. induction evs as [|ev evs IH]; intros st Hst; cbn; [assumption|].
  apply IH. unfold step. apply keeps_handler, Hst.
Qed.

(** ** More on the CSV import *)

Lemma passesGate_false row :
  passesGate row = false
  <-> missing (row !! "Order number") \/ missing (row !! "Item title")
      \/ missing (row !! "Total price").
Proof.
  assert (Hm : forall v, truthy v = false <-> missing v).
  { intros v. split; [|apply truthy_missing].
    destruct v as [s|]; [|left; reflexivity].
    cbn. destruct (String.eqb_spec s ""); [subst; right; reflexivity|discriminate]. }
  unfold passesGate. rewrite !andb_false_iff, !Hm. tauto.
Qed.

Lemma normalizeRow_gate row :
  normalizeRow row
  = if passesGate row
    then match toISOString (Date_of_value (row !! "Sale date")) with
         | Thrown e => Thrown e
         | Done iso =>
             Done (Some {| listing_id := String_ (row !! "Order number");
                           item_name := String_ (row !! "Item title");
                           price := Number (inl (replaceDollar (String_ (row !! "Total price"))));
                           date_sold := iso;
                           quantity := Number (orNumber (row !! "Quantity") (JsInt 1));
                           notes := None;
                           source := csv |})
         end
    else Done None.
Proof.
  unfold normalizeRow, passesGate.
  destruct (truthy (row !! "Order number")), (truthy (row !! "Item title")),
    (truthy (row !! "Total price")); reflexivity.
Qed.

(** X1. What the row callback does with a row depends on the gate and on the
    sale date only: the row is dropped exactly when a required field is
    missing or empty, the callback raises exactly when the row passes the
    gate with a date that does not parse, and a record is made exactly when
    the row passes the gate with a date that parses, whatever the price and
    the quantity say. *)
Theorem normalizeRow_cases (row : Row) :
  (normalizeRow row = Done None
   <-> missing (row !! "Order number") \/ missing (row !! "Item title")
       \/ missing (row !! "Total price"))
  /\ ((exists e, normalizeRow row = Thrown e)
      <-> passesGate row = true /\ Date_of_value (row !! "Sale date") = None)
  /\ ((exists rec, normalizeRow row = Done (Some rec))
      <-> passesGate row = true /\ Date_of_value (row !! "Sale date") <> None).
Proof.
  rewrite <- passesGate_false, normalizeRow_gate.
  destruct (passesGate row); unfold toISOString;
    destruct (Date_of_value (row !! "Sale date")) as [tv|].
  - split; [split; discriminate|]. split.
    + split; [intros [e He]; discriminate|intros [_ Hd]; discriminate].
    + split; [intros _; split; [reflexivity|discriminate]|intros _; eexists; reflexivity].
  - split; [split; discriminate|]. split.
    + split; [intros _; split; reflexivity|intros _; eexists; reflexivity].
    + split; [intros [rec Hr]; discriminate|intros [_ Hd]; congruence].
  - split; [split; reflexivity|]. split.
    + split; [intros [e He]; discriminate|intros [Hg _]; discriminate].
    + split; [intros [rec Hr]; discriminate|intros [Hg _]; discriminate].
  - split; [split; reflexivity|]. split.
    + split; [intros [e He]; discriminate|intros [Hg _]; discriminate].
    + split; [intros [rec Hr]; discriminate|intros [Hg _]; discriminate].
Qed.

(** X2. The import raises before its write exactly when some row of the file
    passes the gate with a sale date that does not parse. *)
Theorem normalizeRows_Thrown_iff (rows : list Row) :
  (exists e, normalizeRows rows = Thrown e)
  <-> Exists (fun row : Row => passesGate row = true
                               /\ Date_of_value (row !! "Sale date") = None) rows.
Proof.
  induction rows as [|row rows IH].
  - split; [intros [e He]; discriminate|intros Hex; inversion Hex].
  - rewrite normalizeRows_cons, Exists_cons.
    pose proof (normalizeRow_cases row) as (_ & Hthrown & _).
    destruct (normalizeRow row) as [r|e] eqn:Er.
    + assert (Hno : ~ (passesGate row = true
                       /\ Date_of_value (row !! "Sale date") = None)).
      { intros Hbad. apply Hthrown in Hbad as [e He]. discriminate. }
      destruct (normalizeRows rows) as [b|e].
      * split; [intros [e He]; discriminate|].
        intros [Hbad|Hex]; [contradiction|].
        apply IH in Hex as [e He]. discriminate.
      * split; [intros _; right; apply IH; eexists; reflexivity|].
        intros _. eexists. reflexivity.
    + split; [intros _; left; apply Hthrown; eexists; reflexivity|].
      intros _. eexists. reflexivity.
Qed.

(** X3. The batch keeps the order of the file: its [listing_id]s and
    [item_name]s are the order numbers and item titles of the rows that pass
    the gate, in the order of the rows. *)
Theorem batch_in_file_order (rows : list Row) (batch : list Repair) :
  normalizeRows rows = Done batch ->
  map listing_id batch = omap (keptField "Order number") rows
  /\ map item_name batch = omap (keptField "Item title") rows.
Proof.
  revert batch. induction rows as [|row rows IH]; intros batch.
  - intros [= <-]. split; reflexivity.
  - assert (Hcons : forall k,
      omap (keptField k) (row :: rows)
      = match (if passesGate row then row !! k else None) with
        | Some y => y :: omap (keptField k) rows
        | None => omap (keptField k) rows
        end) by reflexivity.
    rewrite normalizeRows_cons, normalizeRow_gate, !Hcons.
    destruct (passesGate row) eqn:Eg.
    + destruct (toISOString _); [|discriminate].
      destruct (normalizeRows rows) as [b|]; [|discriminate].
      intros [= <-]. destruct (IH b eq_refl) as [IH1 IH2].
      unfold passesGate in Eg. apply andb_prop in Eg as [Eg _].
      apply andb_prop in Eg as [Ho Ht].
      apply truthy_Some in Ho as (o & Ho & _). apply truthy_Some in Ht as (t & Ht & _).
      rewrite Ho, Ht. cbn. rewrite IH1, IH2. split; reflexivity.
    + destruct (normalizeRows rows) as [b|]; [|discriminate].
      intros [= <-]. apply IH. reflexivity.
Qed.

(** X4. A file without a row that passes the gate (an empty file included)
    still reaches the store: the handler upserts the empty batch. *)
Theorem empty_batch_still_upserted (rows : list Row) (st : St) :
  Forall (fun row : Row => passesGate row = false) rows ->
  normalizeRows rows = Done []
  /\ exists (e : option PostgrestError) (rest : list Call),
       calls (snd (complete rows st))
       = calls st ++ Called (db_upsert "repairs" [] ["listing_id"]) e :: rest.
Proof.
  intros Hrows.
  assert (Hbatch : normalizeRows rows = Done []).
  { induction Hrows as [|row rows Hrow _ IH]; [reflexivity|].
    rewrite normalizeRows_cons, normalizeRow_gate, Hrow, IH. reflexivity. }
  split; [exact Hbatch|].
  destruct (complete_calls _ _ st Hbatch) as (e & rest & Hcalls & _).
  exists e, rest. exact Hcalls.
Qed.

Lemma replaceDollar_first_only (pre post : string) :
  noDollar pre -> replaceDollar (pre ++ "$" ++ post)%string = (pre ++ post)%string.
Proof.
  unfold noDollar. induction pre as [|c pre IH]; intros Hpre.
  - reflexivity.
  - change (replaceDollar (String c (pre ++ "$" ++ post)%string)
            = String c (pre ++ post)%string).
    cbn [replaceDollar]. cbn in Hpre.
    inversion Hpre as [|? ? Hc Hrest]; subst.
    destruct (Z.eqb_spec (code c) 36); [contradiction|].
    rewrite (IH Hrest). reflexivity.
Qed.

Lemma replaceDollar_none (s : string) : noDollar s -> replaceDollar s = s.
Proof.
  unfold noDollar. induction s as [|c s IH]; intros Hs; [reflexivity|].
  cbn [replaceDollar]. cbn in Hs.
  inversion Hs as [|? ? Hc Hrest]; subst.
  destruct (Z.eqb_spec (code c) 36); [contradiction|].
  rewrite (IH Hrest). reflexivity.
Qed.

(** X5. The price of a kept row: the first dollar sign of the text is taken
    out wherever it stands, a later one stays, and the rest is converted
    with [Number]; a text without a dollar sign is converted as it is. *)
Theorem price_without_first_dollar (row : Row) (rec : Repair) :
  normalizeRow row = Done (Some rec) ->
  (forall pre post : string,
     row !! "Total price" = Some (pre ++ "$" ++ post)%string -> noDollar pre ->
     price rec = StringToNumber (pre ++ post)%string)
  /\ (forall p : string,
        row !! "Total price" = Some p -> noDollar p -> price rec = StringToNumber p).
Proof.
  rewrite normalizeRow_gate. destruct (passesGate row); [|discriminate].
  destruct (toISOString _); [|discriminate]. intros [= <-]. cbn [price].
  split.
  - intros pre post -> Hpre. cbn [String_ Number].
    rewrite replaceDollar_first_only by assumption. reflexivity.
  - intros p -> Hp. cbn [String_ Number].
    rewrite replaceDollar_none by assumption. reflexivity.
Qed.

(** X6. The outcome of an import whose rows normalize: when the upsert fails
    the message of the error is shown and nothing else happens (no refresh,
    the view as it was); when it succeeds the success message is shown and
    the list is fetched again, the form and the loading flag staying as they
    were. *)
Theorem handleCSV_outcome (file : string) (batch : list Repair) (st : St) :
  let rows := fst (respond _ (Papa_parse file true true) (world st)) in
  let w1 := snd (respond _ (Papa_parse file true true) (world st)) in
  let st' := snd (handleCSV file st) in
  normalizeRows rows = Done batch ->
  match fst (respond _ (db_upsert "repairs" batch ["listing_id"]) w1) with
  | Some e =>
      ui st' = ui st
      /\ calls st'
         = calls st ++ [ Called (Papa_parse file true true) rows;
                         Called (db_upsert "repairs" batch ["listing_id"]) (Some e);
                         Called (window_alert (message e)) tt ]
  | None =>
      form (ui st') = form (ui st) /\ loading (ui st') = loading (ui st)
      /\ exists r : Response,
           calls st'
           = calls st ++ [ Called (Papa_parse file true true) rows;
                           Called (db_upsert "repairs" batch ["listing_id"]) None;
                           Called (window_alert "CSV imported successfully!") tt;
                           Called (db_select listing) r ]
           /\ repairs (ui st')
              = match error r with
                | None => orEmpty (data r)
                | Some _ => repairs (ui st)
                end
  end.
Proof.
  intros rows w1 st'. subst rows w1 st'. unfold handleCSV. run_handler.
  destruct (respond _ (Papa_parse file true true) (world st)) as [rows w1].
  run_handler. intros Hbatch. unfold complete. rewrite Hbatch. run_handler.
  destruct (respond _ (db_upsert "repairs" batch ["listing_id"]) w1) as [[e|] w2];
    run_handler.
  - answer_call. destruct x. run_handler. rewrite <- !app_assoc.
    destruct (ui st). split; reflexivity.
  - answer_call. destruct x. unfold refreshRepairs. run_handler.
    answer_call. run_handler.
    split; [destruct (error x); reflexivity|].
    split; [destruct (error x); reflexivity|].
    exists x. split; destruct (error x); run_handler; rewrite <- ?app_assoc; reflexivity.
Qed.

(** ** More on the period filters *)

(** A time is not before the first day of its own month. *)
Lemma month_start_le t :
  MakeDate (MakeDay (YearFromTime t) (MonthFromTime t) 1) 0 <= t.
Proof.
  pose proof (MonthFromTime_range t) as Hm.
  rewrite MakeDay_in_year by assumption.
  pose proof (YearFromTime_bounds t) as [Hlo _].
  assert (Hday : Day t * msPerDay <= t) by (unfold Day, msPerDay; zdiv).
  assert (Hstart : monthStart (isLeapYear (YearFromTime t)) (MonthFromTime t)
                   <= Day t - DayFromYear (YearFromTime t)).
  { unfold MonthFromTime, InLeapYear, DayWithinYear.
    destruct (isLeapYear (YearFromTime t));
      repeat match goal with
             | |- context [?a <? ?b] => destruct (Z.ltb_spec a b)
             end; eval_months; lia. }
  unfold MakeDate, msPerDay in *. lia.
Qed.

(** X7. [filterRepairs("thisMonth")], for a clock whose local year is not
    one of 0..99: the only bound is a lower one, 00:00 local time of day 1
    of the current month, which the current time is never before; it is sent
    as a [gte] filter on [date_sold], and there is no upper bound. *)
Theorem filterRepairs_thisMonth_bound (st : St) :
  let now := fst (respond Z Date_now (world st)) in
  let y := getFullYear now in
  let m := getMonth now in
  let lo := MakeDate (MakeDay y m 1) 0 in
  ~ (0 <= y <= 99) ->
  (YearFromTime lo = y /\ MonthFromTime lo = m /\ DateFromTime lo = 1
   /\ TimeWithinDay lo = 0)
  /\ lo <= LocalTime now
  /\ forall slo : string,
       toISOString (TimeClip (UTC lo)) = Done slo ->
       exists r : Response,
         calls (snd (filterRepairs "thisMonth" st))
         = calls st ++
           [ Called Date_now now;
             Called (db_select {| from := "repairs"; select := "*";
                                  filters := [gte "date_sold" slo];
                                  order := Some ("date_sold", false) |}) r ].
Proof.
  intros now y m lo Hy.
  assert (Hm : 0 <= m <= 11) by apply MonthFromTime_range.
  pose proof (DaysInMonth_pos y m Hm) as Hdim.
  split; [apply fields_of_MakeDay; unfold msPerDay; lia|].
  split; [apply month_start_le|].
  intros slo Hlo.
  unfold filterRepairs. run_handler.
  subst now y m. destruct (respond Z Date_now (world st)) as [now w1].
  cbn [fst snd world ui calls String.eqb Ascii.eqb Bool.eqb] in *.
  rewrite !Date_of_fields_modern by assumption.
  fold lo. rewrite Hlo.
  cbn [addFilter orderBy from select filters order app]. run_handler.
  answer_call. exists x. run_handler. rewrite <- app_assoc. reflexivity.
Qed.

(** X8. [filterRepairs("thisYear")], for a clock whose local year is not one
    of 0..99: the only bound is a lower one, 00:00 local time of January 1
    of the current year, which the current time is never before. *)
Theorem filterRepairs_thisYear_bound (st : St) :
  let now := fst (respond Z Date_now (world st)) in
  let y := getFullYear now in
  let lo := MakeDate (MakeDay y 0 1) 0 in
  ~ (0 <= y <= 99) ->
  (YearFromTime lo = y /\ MonthFromTime lo = 0 /\ DateFromTime lo = 1
   /\ TimeWithinDay lo = 0)
  /\ lo <= LocalTime now
  /\ forall slo : string,
       toISOString (TimeClip (UTC lo)) = Done slo ->
       exists r : Response,
         calls (snd (filterRepairs "thisYear" st))
         = calls st ++
           [ Called Date_now now;
             Called (db_select {| from := "repairs"; select := "*";
                                  filters := [gte "date_sold" slo];
                                  order := Some ("date_sold", false) |}) r ].
Proof.
  intros now y lo Hy.
  pose proof (DaysInMonth_pos y 0 ltac:(lia)) as Hdim.
  split; [apply fields_of_MakeDay; unfold msPerDay; lia|].
  split.
  { subst lo y. unfold getFullYear.
    pose proof (YearFromTime_largest (LocalTime now)) as [Hle _].
    rewrite MakeDay_in_year by lia. unfold TimeFromYear, MakeDate in *.
    change (monthStart (isLeapYear (YearFromTime (LocalTime now))) 0) with 0.
    lia. }
  intros slo Hlo.
  unfold filterRepairs. run_handler.
  subst now y. destruct (respond Z Date_now (world st)) as [now w1].
  cbn [fst snd world ui calls String.eqb Ascii.eqb Bool.eqb] in *.
  rewrite !Date_of_fields_modern by assumption.
  fold lo. rewrite Hlo.
  cbn [addFilter orderBy from select filters order app]. run_handler.
  answer_call. exists x. run_handler. rewrite <- app_assoc. reflexivity.
Qed.

(** X9. A period tag other than the three known ones: the handler cannot
    raise, it sends the unfiltered listing query (the one of the initial
    load) and shows its answer. *)
Theorem filterRepairs_unknown_period (period : string) (st : St) :
  period <> "thisMonth" -> period <> "lastMonth" -> period <> "thisYear" ->
  fst (filterRepairs period st) = Done tt
  /\ exists (now : Z) (r : Response),
       calls (snd (filterRepairs period st))
       = calls st ++ [Called Date_now now; Called (db_select listing) r]
       /\ repairs (ui (snd (filterRepairs period st))) = orEmpty (data r).
Proof.
  intros H1 H2 H3. apply String.eqb_neq in H1, H2, H3.
  unfold filterRepairs. run_handler. rewrite H1, H2, H3.
  answer_call. run_handler. answer_call. run_handler.
  split; [reflexivity|]. exists x, x0. rewrite <- app_assoc. split; reflexivity.
Qed.

(** X10. The upper bound of "lastMonth" is the first instant of the last
    day of the previous month: every later instant of that day is still in
    the previous month and lies after the bound. *)
Theorem lastMonth_bound_starts_last_day (y m tod : Z) :
  ~ (0 <= y <= 99) -> 0 <= m <= 11 -> 0 < tod < msPerDay ->
  let py := if m =? 0 then y - 1 else y in
  let pm := if m =? 0 then 11 else m - 1 in
  let hi := MakeDate (MakeDay y m 0) 0 in
  Date_of_fields y m 0 = TimeClip (UTC hi)
  /\ hi < hi + tod
  /\ YearFromTime (hi + tod) = py /\ MonthFromTime (hi + tod) = pm
  /\ DateFromTime (hi + tod) = DaysInMonth py pm.
Proof.
  intros Hy Hm Htod py pm hi.
  assert (Hpm : 0 <= pm <= 11) by (subst pm; destruct (Z.eqb_spec m 0); lia).
  pose proof (DaysInMonth_pos py pm Hpm) as Hdim.
  split; [apply Date_of_fields_modern; assumption|].
  split; [lia|].
  assert (Hshift : hi + tod = MakeDate (MakeDay py pm (DaysInMonth py pm)) tod).
  { subst hi py pm. rewrite MakeDay_day_zero by assumption. unfold MakeDate. lia. }
  rewrite Hshift.
  pose proof (fields_of_MakeDay py pm (DaysInMonth py pm) tod
                ltac:(lia) ltac:(lia) ltac:(lia)) as (Hf1 & Hf2 & Hf3 & _).
  repeat split; assumption.
Qed.

(** ** More on the initial load and the manual entry *)

(** X11. The initial load with a session never raises and always ends the
    loading state; the form is untouched.  When the listing query fails the
    message goes to the console and the list stays as it was; otherwise the
    list becomes the answer. *)
Theorem init_with_session (s : Session) (st : St) :
  fst (respond _ auth_getSession (world st)) = Some s ->
  let st' := snd (init st) in
  fst (init st) = Done tt
  /\ loading (ui st') = false
  /\ form (ui st') = form (ui st)
  /\ exists r : Response,
       match error r with
       | Some e =>
           repairs (ui st') = repairs (ui st)
           /\ calls st'
              = calls st ++ [ Called auth_getSession (Some s);
                              Called (db_select listing) r;
                              Called (console_error "Supabase error:" (message e)) tt ]
       | None =>
           repairs (ui st') = orEmpty (data r)
           /\ calls st'
              = calls st ++ [ Called auth_getSession (Some s);
                              Called (db_select listing) r ]
       end.
Proof.
  intros Hs st'. subst st'. unfold init. run_handler.
  destruct (respond _ auth_getSession (world st)) as [sess w1].
  cbn [fst] in Hs. subst sess. run_handler.
  answer_call. run_handler.
  destruct (error x) as [e|] eqn:Ee; run_handler.
  - answer_call. destruct x0. run_handler.
    repeat split. exists x. rewrite Ee, <- !app_assoc. split; reflexivity.
  - repeat split. exists x. rewrite Ee, <- !app_assoc. split; reflexivity.
Qed.

(** X12. A manual submit that the store accepts: after the insert the list
    is fetched again with the listing query, nothing is shown to the user,
    and the list becomes the answer unless the refresh fails, in which case
    the list stays as it was and the failure is not reported. *)
Theorem handleSubmit_success_refresh (st : St) :
  let w1 := snd (respond unit preventDefault (world st)) in
  let record :=
    {| item_name := form_item_name (form (ui st));
       listing_id := form_listing_id (form (ui st));
       date_sold := form_date_sold (form (ui st));
       quantity := form_quantity (form (ui st));
       notes := Some (form_notes (form (ui st)));
       price := Number (inl (form_price (form (ui st))));
       source := manual |} in
  let st' := snd (handleSubmit st) in
  fst (respond _ (db_insert "repairs" [record]) w1) = None ->
  fst (handleSubmit st) = Done tt
  /\ loading (ui st') = loading (ui st)
  /\ exists r : Response,
       calls st'
       = calls st ++ [ Called preventDefault tt;
                       Called (db_insert "repairs" [record]) None;
                       Called (db_select listing) r ]
       /\ repairs (ui st')
          = match error r with
            | None => orEmpty (data r)
            | Some _ => repairs (ui st)
            end.
Proof.
  intros w1 record st'. subst w1 st'. unfold handleSubmit. run_handler.
  destruct (respond unit preventDefault (world st)) as [[] w1]. run_handler.
  fold record. destruct (respond _ (db_insert "repairs" [record]) w1) as [ans w2].
  cbn [fst]. intros ->. run_handler.
  unfold refreshRepairs. run_handler. answer_call. run_handler.
  split; [destruct (error x); reflexivity|].
  split; [destruct (error x); reflexivity|].
  exists x. split; destruct (error x); run_handler; rewrite <- ?app_assoc; reflexivity.
Qed.

(** ** Invariants of the page *)

Section Keeping.
Variable PU : UI -> Prop.
Variable PC : Call -> Prop.

Lemma keepsOf_ret {A : Type} (a : A) : keepsOf PU PC (ret a).
Proof. intros st Hst. exact Hst. Qed.

Lemma keepsOf_lift_bind {A B : Type} (o : Outcome A) (k : A -> M B) :
  (forall a, o = Done a -> keepsOf PU PC (k a)) -> keepsOf PU PC (bind (lift o) k).
Proof.
  intros Hk st Hst. unfold bind, lift. destruct o as [a|e]; [|exact Hst].
  apply (Hk a eq_refl). exact Hst.
Qed.

Lemma keepsOf_bind {A B : Type} (m : M A) (k : A -> M B) :
  keepsOf PU PC m -> (forall a, keepsOf PU PC (k a)) -> keepsOf PU PC (bind m k).
Proof.
  intros Hm Hk st Hst. unfold bind. specialize (Hm st Hst).
  destruct (m st) as [[a|e] st']; cbn [snd] in *; [apply Hk|]; assumption.
Qed.

Lemma keepsOf_getForm_bind {B : Type} (k : Form -> M B) :
  (forall f, keepsOf PU PC (k f)) -> keepsOf PU PC (bind getForm k).
Proof. intros Hk st Hst. unfold bind, getForm. apply Hk. exact Hst. Qed.

Lemma keepsOf_call {X : Type} (c : Ext X) :
  (forall x, PC (Called c x)) -> keepsOf PU PC (call c).
Proof.
  intros Hc st [Hu Hcalls]. unfold call.
  destruct (respond X c (world st)) as [x w]. split; [exact Hu|].
  cbn [snd calls]. apply Forall_app. split; [assumption|].
  constructor; [apply Hc|constructor].
Qed.

Lemma keepsOf_setUI (f : UI -> UI) :
  (forall u, PU u -> PU (f u)) -> keepsOf PU PC (setUI f).
Proof. intros Hf st [Hu Hcalls]. split; [apply Hf, Hu|exact Hcalls]. Qed.

Lemma keepsOf_run (evs : list UIEvent) (st : St) :
  Forall (fun ev => keepsOf PU PC (handler ev)) evs ->
  InvOf PU PC st -> InvOf PU PC (run evs st).
Proof.
  intros Hevs. revert st. unfold run.
  induction Hevs as [|ev evs Hev _ IH]; intros st Hst; cbn; [assumption|].
  apply IH. unfold step. apply Hev, Hst.
Qed.

End Keeping.

(** One step of a proof that a handler keeps an invariant; what is left is
    about the calls the handler makes and the state it sets. *)
Ltac keepsOf_step :=
  first [ apply keepsOf_getForm_bind; intros ?
        | apply keepsOf_lift_bind; intros ? ?
        | apply keepsOf_bind; [|intros ?]
        | apply keepsOf_ret
        | apply keepsOf_call; intros ?
        | apply keepsOf_setUI; intros ? ?
        | match goal with
          | |- keepsOf _ _ (match ?x with _ => _ end) => destruct x
          | |- keepsOf _ _ (if ?b then _ else _) => destruct b
          end ].

Ltac keepsOf_handler :=
  unfold init, handleSubmit, handleCSV, complete, refreshRepairs, filterRepairs,
    logout, setForm, setRepairs, setLoading;
  repeat keepsOf_step.

Lemma normalizeRows_provenance rows batch :
  normalizeRows rows = Done batch ->
  Forall (fun r => source r = csv /\ notes r = None) batch.
Proof.
  revert batch. induction rows as [|row rows IH]; intros batch.
  - intros [= <-]. constructor.
  - rewrite normalizeRows_cons, normalizeRow_gate.
    destruct (passesGate row).
    + destruct (toISOString _); [|discriminate].
      destruct (normalizeRows rows) as [b|]; [|discriminate].
      intros [= <-]. constructor; [split; reflexivity|apply IH; reflexivity].
    + destruct (normalizeRows rows) as [b|]; [|discriminate].
      intros [= <-]. apply IH. reflexivity.
Qed.

(** X13. Whatever the user does and whatever the outside world answers,
    every write of the page is of one of two kinds: an insert of a single
    row tagged [manual] that carries notes, or an upsert on the conflict key
    [listing_id] of rows tagged [csv] that carry no notes; both go to the
    table [repairs]. *)
Theorem writes_have_provenance (u : UI) (w : World) (evs : list UIEvent) :
  Forall provenance (calls (run evs {| ui := u; world := w; calls := [] |})).
Proof.
  apply (keepsOf_run (fun _ => True) provenance); [|split; [exact I|constructor]].
  apply Forall_forall. intros ev _.
  destruct ev; cbn [handler]; keepsOf_handler; try exact I.
  - cbn. split; [reflexivity|]. eexists. repeat split. discriminate.
  - cbn. repeat split. eapply normalizeRows_provenance. eassumption.
Qed.

(** X14. Only a submit and the choice of a file write to the store: a
    session made of any other events (loading, typing, filtering, logging
    out) makes no insert and no upsert. *)
Theorem only_submit_and_import_write (u : UI) (w : World) (evs : list UIEvent) :
  Forall (fun ev => isReadOnly ev = true) evs ->
  Forall notWrite (calls (run evs {| ui := u; world := w; calls := [] |})).
Proof.
  intros Hevs.
  apply (keepsOf_run (fun _ => True) notWrite); [|split; [exact I|constructor]].
  eapply Forall_impl; [exact Hevs|]. intros ev Hev.
  destruct ev; try discriminate; cbn [handler]; keepsOf_handler;
    first [exact I|reflexivity].
Qed.

(** X15. Once the loading flag is false it stays false: no handler sets it
    back. *)
Theorem loading_never_returns (evs : list UIEvent) (st : St) :
  loading (ui st) = false -> loading (ui (run evs st)) = false.
Proof.
  intros Hst.
  apply (keepsOf_run (fun u => loading u = false) (fun _ => True));
    [|split; [exact Hst|apply Forall_forall; intros; exact I]].
  apply Forall_forall. intros ev _.
  destruct ev; cbn [handler]; keepsOf_handler;
    first [exact I|reflexivity|assumption].
Qed.

(** X16. The form is changed by typing and by a submit only: loading,
    importing a file, filtering and logging out leave what was typed. *)
Theorem form_survives_other_events (evs : list UIEvent) (st : St) :
  Forall (fun ev => leavesForm ev = true) evs ->
  form (ui (run evs st)) = form (ui st).
Proof.
  intros Hevs.
  apply (keepsOf_run (fun u => form u = form (ui st)) (fun _ => True));
    [|split; [reflexivity|apply Forall_forall; intros; exact I]].
  eapply Forall_impl; [exact Hevs|]. intros ev Hev.
  destruct ev; try discriminate; cbn [handler]; keepsOf_handler;
    first [exact I|assumption].
Qed.

Lemma lastTyped_cons typed ev evs before :
  lastTyped typed (ev :: evs) before
  = lastTyped typed evs (match typed ev with Some v => v | None => before end).
Proof. reflexivity. Qed.

(** X17. Typing: after any sequence of changes of the five inputs each field
    of the form holds the last value typed into it (or what it held, when
    nothing was typed into it), the quantity is what it was, and nothing
    else has happened: no call, the list and the loading flag as before. *)
Theorem typing_keeps_last_values (evs : list UIEvent) (st : St) :
  Forall (fun ev => isTyping ev = true) evs ->
  let f := form (ui st) in
  form (ui (run evs st))
  = {| form_item_name := lastTyped itemNameTyped evs (form_item_name f);
       form_listing_id := lastTyped listingIdTyped evs (form_listing_id f);
       form_price := lastTyped priceTyped evs (form_price f);
       form_date_sold := lastTyped dateSoldTyped evs (form_date_sold f);
       form_quantity := form_quantity f;
       form_notes := lastTyped notesTyped evs (form_notes f) |}
  /\ calls (run evs st) = calls st
  /\ world (run evs st) = world st
  /\ repairs (ui (run evs st)) = repairs (ui st)
  /\ loading (ui (run evs st)) = loading (ui st).
Proof.
  intros Hevs. revert st. unfold run.
  induction Hevs as [|ev evs Hev _ IH]; intros st.
  - cbn. destruct (form (ui st)). repeat split; reflexivity.
  - cbn [fold_left]. specialize (IH (step st ev)).
    rewrite !lastTyped_cons. cbv zeta in IH.
    destruct IH as (-> & -> & -> & -> & ->).
    destruct ev; try discriminate; repeat split; reflexivity.
Qed.

Lemma dropWhiteSpace_blank l :
  Forall (fun c => isWhiteSpace c = true) l -> dropWhiteSpace l = [].
Proof.
  induction 1 as [|c l Hc _ IH]; [reflexivity|].
  cbn [dropWhiteSpace]. rewrite Hc. exact IH.
Qed.

Lemma StringToNumber_blank s : blank s -> StringToNumber s = S754_zero false.
Proof.
  unfold blank, StringToNumber, trimWhiteSpace. intros Hs.
  rewrite (dropWhiteSpace_blank _ Hs). reflexivity.
Qed.

(** X18. A submit with the price left empty (or blank) does not fail on the
    price: the row goes to the store with the price 0. *)
Theorem blank_price_is_zero (st : St) :
  blank (form_price (form (ui st))) ->
  exists (record : Repair) (e : option PostgrestError) (rest : list Call),
    calls (snd (handleSubmit st))
    = calls st ++ Called preventDefault tt
                  :: Called (db_insert "repairs" [record]) e :: rest
    /\ price record = S754_zero false
    /\ item_name record = form_item_name (form (ui st))
    /\ listing_id record = form_listing_id (form (ui st)).
Proof.
  intros Hblank. unfold handleSubmit. run_handler.
  answer_call. destruct x. run_handler. answer_call. run_handler.
  eexists. exists x.
  destruct x as [e|]; run_handler.
  - answer_call. destruct x. run_handler. eexists.
    rewrite <- !app_assoc. split; [reflexivity|].
    split; [apply StringToNumber_blank, Hblank|split; reflexivity].
  - unfold refreshRepairs. run_handler. answer_call. run_handler. eexists.
    split; [destruct (error x); run_handler; rewrite <- !app_assoc; reflexivity|].
    split; [apply StringToNumber_blank, Hblank|split; reflexivity].
Qed.

(** ** Sale dates written as YYYY-MM-DD *)

Lemma digit_char c d :
  digitValue c = Some d -> 0 <= d <= 9 /\ ascii_of_N (Z.to_N (48 + d)) = c.
Proof.
  intros Hd. apply digitValue_Some in Hd as [Hc ->]. split; [lia|].
  replace (48 + (code c - 48)) with (code c) by lia.
  unfold code. rewrite N2Z.id. apply ascii_N_embedding.
Qed.

Lemma code_char c n : code c = Z.of_N (N_of_ascii n) -> c = n.
Proof.
  unfold code. intros Hc. apply N2Z.inj in Hc.
  rewrite <- (ascii_N_embedding c), Hc. apply ascii_N_embedding.
Qed.

Lemma padDigits_2 c1 c2 d1 d2 :
  digitValue c1 = Some d1 -> digitValue c2 = Some d2 ->
  padDigits 2 (digitsValue 10 [d1; d2]) = String c1 (String c2 "").
Proof.
  intros H1 H2. apply digit_char in H1 as [R1 <-], H2 as [R2 <-].
  unfold digitsValue. cbn [fold_left padDigits].
  replace ((10 * (10 * 0 + d1) + d2) / 10 mod 10) with d1 by zdiv.
  replace ((10 * (10 * 0 + d1) + d2) mod 10) with d2 by zdiv.
  reflexivity.
Qed.

Lemma padDigits_4 c1 c2 c3 c4 d1 d2 d3 d4 :
  digitValue c1 = Some d1 -> digitValue c2 = Some d2 ->
  digitValue c3 = Some d3 -> digitValue c4 = Some d4 ->
  padDigits 4 (digitsValue 10 [d1; d2; d3; d4])
  = String c1 (String c2 (String c3 (String c4 ""))).
Proof.
  intros H1 H2 H3 H4.
  apply digit_char in H1 as [R1 <-], H2 as [R2 <-], H3 as [R3 <-], H4 as [R4 <-].
  unfold digitsValue. cbn [fold_left padDigits].
  set (z := 10 * (10 * (10 * (10 * 0 + d1) + d2) + d3) + d4).
  replace (z / 10 / 10 / 10 mod 10) with d1 by (subst z; zdiv).
  replace (z / 10 / 10 mod 10) with d2 by (subst z; zdiv).
  replace (z / 10 mod 10) with d3 by (subst z; zdiv).
  replace (z mod 10) with d4 by (subst z; zdiv).
  reflexivity.
Qed.

Lemma mapM_digits_2 c1 c2 ds :
  mapM digitValue [c1; c2] = Some ds ->
  exists a b, digitValue c1 = Some a /\ digitValue c2 = Some b /\ ds = [a; b].
Proof.
  intros Hm. apply mapM_Some in Hm.
  apply Forall2_cons_inv_l in Hm as (a & l1 & Ha & Hm & ->).
  apply Forall2_cons_inv_l in Hm as (b & l2 & Hb & Hm & ->).
  apply Forall2_nil_inv_l in Hm as ->. exists a, b. repeat split; assumption.
Qed.

Lemma mapM_digits_4 c1 c2 c3 c4 ds :
  mapM digitValue [c1; c2; c3; c4] = Some ds ->
  exists a b c d,
    digitValue c1 = Some a /\ digitValue c2 = Some b /\ digitValue c3 = Some c
    /\ digitValue c4 = Some d /\ ds = [a; b; c; d].
Proof.
  intros Hm. apply mapM_Some in Hm.
  apply Forall2_cons_inv_l in Hm as (a & l1 & Ha & Hm & ->).
  apply Forall2_cons_inv_l in Hm as (b & l2 & Hb & Hm & ->).
  apply Forall2_cons_inv_l in Hm as (c & l3 & Hc & Hm & ->).
  apply Forall2_cons_inv_l in Hm as (d & l4 & Hd & Hm & ->).
  apply Forall2_nil_inv_l in Hm as ->. exists a, b, c, d. repeat split; assumption.
Qed.

(** A date-only string comes back from [toISOString] with the time of
    midnight UTC appended. *)
Lemma parseDateOnly_iso s t :
  parseDateOnly s = Some t ->
  toISOString (TimeClip t) = Done (s ++ "T00:00:00.000Z")%string.
Proof.
  unfold parseDateOnly. intros Hp.
  rewrite <- (string_of_list_ascii_of_string s).
  destruct (list_ascii_of_string s) as [|y1 [|y2 [|y3 [|y4 [|h1 [|m1 [|m2 [|h2 [|d1 [|d2 [|? ?]]]]]]]]]]];
    try discriminate.
  destruct (Z.eqb_spec (code h1) 45) as [Hh1|]; [|discriminate].
  destruct (Z.eqb_spec (code h2) 45) as [Hh2|]; [|discriminate].
  cbn [andb] in Hp.
  destruct (mapM digitValue [y1; y2; y3; y4]) as [ys|] eqn:Eys; [|discriminate].
  destruct (mapM digitValue [m1; m2]) as [ms|] eqn:Ems; [|discriminate].
  destruct (mapM digitValue [d1; d2]) as [ds|] eqn:Eds; [|discriminate].
  apply mapM_digits_4 in Eys as (a1 & a2 & a3 & a4 & Ha1 & Ha2 & Ha3 & Ha4 & ->).
  apply mapM_digits_2 in Ems as (b1 & b2 & Hb1 & Hb2 & ->).
  apply mapM_digits_2 in Eds as (e1 & e2 & He1 & He2 & ->).
  pose proof (padDigits_4 _ _ _ _ _ _ _ _ Ha1 Ha2 Ha3 Ha4) as Hyear.
  pose proof (padDigits_2 _ _ _ _ Hb1 Hb2) as Hmonth.
  pose proof (padDigits_2 _ _ _ _ He1 He2) as Hdate.
  assert (Hy : 0 <= digitsValue 10 [a1; a2; a3; a4] <= 9999).
  { apply digit_char in Ha1 as [? _], Ha2 as [? _], Ha3 as [? _], Ha4 as [? _].
    unfold digitsValue. cbn [fold_left]. lia. }
  set (y := digitsValue 10 [a1; a2; a3; a4]) in *.
  set (m := digitsValue 10 [b1; b2]) in *.
  set (d := digitsValue 10 [e1; e2]) in *.
  clearbody y m d.
  destruct (Z.leb_spec 1 m); [|discriminate].
  destruct (Z.leb_spec m 12); [|discriminate].
  destruct (Z.leb_spec 1 d); [|discriminate].
  destruct (Z.leb_spec d (DaysInMonth y (m - 1))); [|discriminate].
  cbn [andb] in Hp. injection Hp as <-.
  change (MakeTime 0 0 0 0) with 0.
  pose proof (fields_of_MakeDay y (m - 1) d 0 ltac:(lia) ltac:(lia)
                ltac:(unfold msPerDay; lia)) as (Fy & Fm & Fd & _).
  pose proof (DaysInMonth_pos y (m - 1) ltac:(lia)) as Hdim.
  assert (Hday : -720000 <= MakeDay y (m - 1) d <= 2940000).
  { rewrite MakeDay_in_year by lia.
    assert (0 <= monthStart (isLeapYear y) (m - 1) <= 335).
    { remember (m - 1) as mn eqn:Emn. assert (Hmn : 0 <= mn <= 11) by lia.
      clear - Hmn. destruct (isLeapYear y); months mn; eval_months; lia. }
    unfold DayFromYear. zdiv. }
  set (day := MakeDay y (m - 1) d) in *. clearbody day.
  unfold TimeClip.
  destruct (Z.leb_spec (Z.abs (MakeDate day 0)) 8640000000000000) as [_|Hbig];
    [|unfold MakeDate, msPerDay in Hbig; lia].
  unfold toISOString. rewrite Fy, Fm, Fd.
  destruct (Z.leb_spec 0 y); [|lia]. destruct (Z.leb_spec y 9999); [|lia].
  cbn [andb]. replace (m - 1 + 1) with m by lia.
  rewrite Hyear, Hmonth, Hdate.
  replace (HourFromTime (MakeDate day 0)) with 0
    by (unfold HourFromTime, MakeDate, msPerDay, msPerHour; zdiv).
  replace (MinFromTime (MakeDate day 0)) with 0
    by (unfold MinFromTime, MakeDate, msPerDay, msPerMinute; zdiv).
  replace (SecFromTime (MakeDate day 0)) with 0
    by (unfold SecFromTime, MakeDate, msPerDay, msPerSecond; zdiv).
  replace (msFromTime (MakeDate day 0)) with 0
    by (unfold msFromTime, MakeDate, msPerDay, msPerSecond; zdiv).
  apply (code_char h1 "-"%char) in Hh1. apply (code_char h2 "-"%char) in Hh2.
  subst h1 h2. reflexivity.
Qed.

(** X19. A kept row whose sale date is written YYYY-MM-DD (a day that
    exists): the callback does not raise, and [date_sold] is that same text
    followed by the time of midnight UTC, on every host and in every time
    zone. *)
Theorem date_only_sale_date (row : Row) (s : string) (t : Z) :
  passesGate row = true ->
  row !! "Sale date" = Some s ->
  parseDateOnly s = Some t ->
  exists rec : Repair,
    normalizeRow row = Done (Some rec)
    /\ date_sold rec = (s ++ "T00:00:00.000Z")%string.
Proof.
  intros Hg Hs Hp. rewrite normalizeRow_gate, Hg, Hs.
  unfold Date_of_value, Date_parse. rewrite Hp, (parseDateOnly_iso s t Hp).
  eexists. split; reflexivity.
Qed.

Lemma keepsOf_filterRepairs period :
  keepsOf (fun _ => True) queryShaped (filterRepairs period).
Proof.
  intros st [_ Hcalls]. unfold filterRepairs. run_handler. answer_call. run_handler.
  destruct (String.eqb period "thisMonth");
    destruct (String.eqb period "lastMonth");
    destruct (String.eqb period "thisYear");
    repeat match goal with
           | |- context [toISOString ?d] => destruct (toISOString d); run_handler
           end;
    try answer_call; run_handler;
    (split; [exact I|]); cbn [snd calls]; rewrite ?Forall_app; repeat split;
    try assumption; repeat constructor.
Qed.

(** X20. Every query the page sends, whatever the events and the answers,
    reads all columns of [repairs] with the newest sale first, and its
    filters, if any, are on [date_sold]. *)
Theorem queries_are_shaped (u : UI) (w : World) (evs : list UIEvent) :
  Forall queryShaped (calls (run evs {| ui := u; world := w; calls := [] |})).
Proof.
  apply (keepsOf_run (fun _ => True) queryShaped); [|split; [exact I|constructor]].
  apply Forall_forall. intros ev _.
  destruct ev; cbn [handler]; try apply keepsOf_filterRepairs;
    keepsOf_handler; first [exact I|cbn; repeat split; constructor].
Qed.

End Handlers.

(** * The theorems at work on the in-memory host *)

(** C1 on a file of three rows, the first two for order 1001. *)
Lemma upsert_identical_order_numbers_witness :
  let rec2 :=
    {| listing_id := "1001"; item_name := "Widget (relisted)";
       price := decimalNumber false 1250 (-2);
       date_sold := "2024-03-02T00:00:00.000Z"; quantity := JsInt 3;
       notes := None; source := csv |} in
  exists s : StoredRepair,
    List.filter (hasListing "1001")
      (upsert [ {| listing_id := "1001"; item_name := "Widget"; price := JsInt 10;
                   date_sold := "2024-01-05T00:00:00.000Z"; quantity := JsInt 2;
                   notes := None; source := csv |};
                rec2;
                {| listing_id := "1002"; item_name := "Gadget"; price := JsInt 20;
                   date_sold := "2024-02-01T00:00:00.000Z"; quantity := JsInt 1;
                   notes := None; source := csv |} ] [])
    = [s] /\ columns s = rec2.
Proof.
  intros rec2.
  refine (proj2 (@upsert_identical_order_numbers memHost
            [] [] [row1002] row1001 row1001again "1001" rec2 _
            (memStart signedIn) _ _ _ _ _)).
  - reflexivity.
  - reflexivity.
  - repeat constructor. vm_compute. discriminate.
  - vm_compute. reflexivity.
  - vm_compute. reflexivity.
Defined.

(** C2 on the scenario: the row without order number changes nothing. *)
Lemma discarded_row_excluded_witness :
  @normalizeRow memHost rowBad = Done None
  /\ @normalizeRows memHost ([row1001] ++ rowBad :: [row1002])
     = @normalizeRows memHost ([row1001] ++ [row1002])
  /\ @complete memHost ([row1001] ++ rowBad :: [row1002]) (memStart signedIn)
     = @complete memHost ([row1001] ++ [row1002]) (memStart signedIn).
Proof.
  apply (@discarded_row_excluded memHost rowBad [row1001] [row1002] (memStart signedIn)).
  left. right. reflexivity.
Defined.

(** C4 on a file whose second row has the sale date "not a date": nothing
    is imported, the first row included. *)
Lemma unparseable_date_aborts_import_witness :
  @normalizeRow memHost rowBadDate = Thrown (RangeError "Invalid time value")
  /\ @normalizeRows memHost ([row1001] ++ rowBadDate :: [row1002])
     = Thrown (RangeError "Invalid time value")
  /\ @complete memHost ([row1001] ++ rowBadDate :: [row1002]) (memStart signedIn)
     = (Thrown (RangeError "Invalid time value"), memStart signedIn).
Proof.
  apply (@unparseable_date_aborts_import memHost rowBadDate [row1001] [row1002]
           (memStart signedIn)); reflexivity.
Defined.

(** C5 on the rows of the scenario: "2" gives 2, the empty field gives 1. *)
Lemma quantity_is_Number_of_field_witness :
  quantity {| listing_id := "1001"; item_name := "Widget"; price := JsInt 10;
              date_sold := "2024-01-05T00:00:00.000Z"; quantity := JsInt 2;
              notes := None; source := csv |}
  = JsInt (digitsValue 10 [2]).
Proof.
  refine (proj1 (proj2 (proj2 (@quantity_is_Number_of_field memHost row1001 _ _)))
            "2" [2] _ _ _).
  - vm_compute. reflexivity.
  - reflexivity.
  - reflexivity.
  - discriminate.
Defined.

(** C5, the claim as stated: a "Quantity" of "2.5" passes the gate and gives
    the quantity 2.5, which no parse as an integer returns. *)
Lemma quantity_fraction_kept :
  exists rec : Repair,
    @normalizeRow memHost rowHalf = Done (Some rec)
    /\ quantity rec = decimalNumber false 25 (-1)
    /\ isInteger (quantity rec) = false
    /\ quantity rec <> NaN.
Proof.
  eexists. split; [vm_compute; reflexivity|].
  split; [vm_compute; reflexivity|].
  split; [vm_compute; reflexivity|].
  vm_compute. discriminate.
Defined.

(** C6 on 2024-03-15 in the UTC zone: from 2024-02-01T00:00 to
    2024-02-29T00:00. *)
Lemma filterRepairs_lastMonth_bounds_witness :
  exists r : Response,
    calls (snd (@filterRepairs memHost "lastMonth" (memStart signedIn)))
    = [ Called Date_now noon_2024_03_15;
        Called (db_select
                  {| from := "repairs"; select := "*";
                     filters := [ gte "date_sold" "2024-02-01T00:00:00.000Z";
                                  lte "date_sold" "2024-02-29T00:00:00.000Z" ];
                     order := Some ("date_sold", false) |}) r ].
Proof.
  refine (proj2 (proj2 (proj2
            (@filterRepairs_lastMonth_bounds memHost (memStart signedIn) _))) _ _ _ _).
  - vm_compute. intros [_ Hle]. apply Hle. reflexivity.
  - vm_compute. reflexivity.
  - vm_compute. reflexivity.
Defined.

(** * The further properties at work on the in-memory host *)

(** X3 on the scenario. *)
Lemma batch_in_file_order_witness :
  map listing_id
    [ {| listing_id := "1001"; item_name := "Widget"; price := JsInt 10;
         date_sold := "2024-01-05T00:00:00.000Z"; quantity := JsInt 2;
         notes := None; source := csv |};
      {| listing_id := "1002"; item_name := "Gadget"; price := JsInt 20;
         date_sold := "2024-02-01T00:00:00.000Z"; quantity := JsInt 1;
         notes := None; source := csv |} ]
  = omap (keptField "Order number") [row1001; rowBad; row1002].
Proof.
  refine (proj1 (@batch_in_file_order memHost [row1001; rowBad; row1002] _ _)).
  vm_compute. reflexivity.
Defined.

(** X4 on a file whose only row has no order number. *)
Lemma empty_batch_still_upserted_witness :
  @normalizeRows memHost [rowBad] = Done []
  /\ exists (e : option PostgrestError) (rest : list Call),
       calls (snd (@complete memHost [rowBad] (memStart signedIn)))
       = [] ++ Called (db_upsert "repairs" [] ["listing_id"]) e :: rest.
Proof.
  apply (@empty_batch_still_upserted memHost [rowBad] (memStart signedIn)).
  repeat constructor.
Defined.

(** X5 on a price with the dollar sign inside: "1$0" is 10. *)
Lemma price_without_first_dollar_witness :
  price {| listing_id := "1005"; item_name := "Hinge"; price := JsInt 10;
           date_sold := "2024-01-08T00:00:00.000Z"; quantity := JsInt 1;
           notes := None; source := csv |}
  = StringToNumber ("1" ++ "0")%string.
Proof.
  refine (proj1 (@price_without_first_dollar memHost rowDollarInside _ _) "1" "0" _ _).
  - vm_compute. reflexivity.
  - reflexivity.
  - repeat constructor. vm_compute. discriminate.
Defined.

(** X6 on the scenario, the store reachable. *)
Lemma handleCSV_outcome_witness :
  exists r : Response,
    calls (snd (@handleCSV memHost "orders.csv" (memStart signedIn)))
    = [] ++ [ Called (Papa_parse "orders.csv" true true) [row1001; rowBad; row1002];
              Called (db_upsert "repairs"
                        [ {| listing_id := "1001"; item_name := "Widget";
                             price := JsInt 10;
                             date_sold := "2024-01-05T00:00:00.000Z";
                             quantity := JsInt 2; notes := None; source := csv |};
                          {| listing_id := "1002"; item_name := "Gadget";
                             price := JsInt 20;
                             date_sold := "2024-02-01T00:00:00.000Z";
                             quantity := JsInt 1; notes := None; source := csv |} ]
                        ["listing_id"]) None;
              Called (window_alert "CSV imported successfully!") tt;
              Called (db_select listing) r ]
    /\ repairs (ui (snd (@handleCSV memHost "orders.csv" (memStart signedIn))))
       = match error r with
         | None => orEmpty (data r)
         | Some _ => []
         end.
Proof.
  refine (proj2 (proj2 (@handleCSV_outcome memHost "orders.csv" _ (memStart signedIn) _))).
  vm_compute. reflexivity.
Defined.

(** X7 on 2024-03-15 in the UTC zone: from 2024-03-01T00:00. *)
Lemma filterRepairs_thisMonth_bound_witness :
  exists r : Response,
    calls (snd (@filterRepairs memHost "thisMonth" (memStart signedIn)))
    = [] ++ [ Called Date_now noon_2024_03_15;
              Called (db_select
                        {| from := "repairs"; select := "*";
                           filters := [ gte "date_sold" "2024-03-01T00:00:00.000Z" ];
                           order := Some ("date_sold", false) |}) r ].
Proof.
  refine (proj2 (proj2
            (@filterRepairs_thisMonth_bound memHost (memStart signedIn) _)) _ _).
  - vm_compute. intros [_ Hle]. apply Hle. reflexivity.
  - vm_compute. reflexivity.
Defined.

(** X8 on 2024-03-15 in the UTC zone: from 2024-01-01T00:00. *)
Lemma filterRepairs_thisYear_bound_witness :
  exists r : Response,
    calls (snd (@filterRepairs memHost "thisYear" (memStart signedIn)))
    = [] ++ [ Called Date_now noon_2024_03_15;
              Called (db_select
                        {| from := "repairs"; select := "*";
                           filters := [ gte "date_sold" "2024-01-01T00:00:00.000Z" ];
                           order := Some ("date_sold", false) |}) r ].
Proof.
  refine (proj2 (proj2
            (@filterRepairs_thisYear_bound memHost (memStart signedIn) _)) _ _).
  - vm_compute. intros [_ Hle]. apply Hle. reflexivity.
  - vm_compute. reflexivity.
Defined.

(** X9 on the tag "all". *)
Lemma filterRepairs_unknown_period_witness :
  fst (@filterRepairs memHost "all" (memStart signedIn)) = Done tt
  /\ exists (now : Z) (r : Response),
       calls (snd (@filterRepairs memHost "all" (memStart signedIn)))
       = [] ++ [Called Date_now now; Called (db_select listing) r]
       /\ repairs (ui (snd (@filterRepairs memHost "all" (memStart signedIn))))
          = orEmpty (data r).
Proof.
  apply (@filterRepairs_unknown_period memHost "all" (memStart signedIn));
    discriminate.
Defined.

(** X10 on March 2024: noon of February 29 is after the bound and in
    February. *)
Lemma lastMonth_bound_starts_last_day_witness :
  let hi := MakeDate (MakeDay 2024 2 0) 0 in
  @Date_of_fields memHost 2024 2 0 = TimeClip (@UTC memHost hi)
  /\ hi < hi + 43200000
  /\ YearFromTime (hi + 43200000) = 2024 /\ MonthFromTime (hi + 43200000) = 1
  /\ DateFromTime (hi + 43200000) = DaysInMonth 2024 1.
Proof.
  apply (@lastMonth_bound_starts_last_day memHost 2024 2 43200000);
    unfold msPerDay; lia.
Defined.

(** X11 on a signed-in visitor of a reachable store. *)
Lemma init_with_session_witness :
  fst (@init memHost (memStart signedIn)) = Done tt
  /\ loading (ui (snd (@init memHost (memStart signedIn)))) = false.
Proof.
  pose proof (@init_with_session memHost {| access_token := "token" |}
                (memStart signedIn) eq_refl) as (Hdone & Hload & _).
  split; assumption.
Defined.

(** X12 on the first manual entry of an empty store. *)
Lemma handleSubmit_success_refresh_witness :
  fst (@handleSubmit memHost (memStart signedIn)) = Done tt
  /\ loading (ui (snd (@handleSubmit memHost (memStart signedIn)))) = true.
Proof.
  pose proof (@handleSubmit_success_refresh memHost (memStart signedIn) eq_refl)
    as (Hdone & Hload & _).
  split; assumption.
Defined.

(** X14 on a visit without a submit or an import. *)
Lemma only_submit_and_import_write_witness :
  Forall notWrite
    (calls (@run memHost [Mount; ChangePrice "5"; ClickFilter "lastMonth"; ClickLogout]
              (memStart signedIn))).
Proof.
  apply (@only_submit_and_import_write memHost initialUI signedIn
           [Mount; ChangePrice "5"; ClickFilter "lastMonth"; ClickLogout]).
  repeat constructor.
Defined.

(** X15 after the initial load. *)
Lemma loading_never_returns_witness :
  loading (ui (@run memHost [ClickFilter "thisYear"; ChooseFile "orders.csv"; Submit]
                 (@run memHost [Mount] (memStart signedIn)))) = false.
Proof.
  apply (@loading_never_returns memHost). reflexivity.
Defined.

(** X16 on an import and a filter while a name is typed. *)
Lemma form_survives_other_events_witness :
  form (ui (@run memHost [ChooseFile "orders.csv"; ClickFilter "thisMonth"]
              (@run memHost [ChangeItemName "Lamp"] (memStart signedIn))))
  = form (ui (@run memHost [ChangeItemName "Lamp"] (memStart signedIn))).
Proof.
  apply (@form_survives_other_events memHost). repeat constructor.
Defined.

(** X17 on a corrected entry. *)
Lemma typing_keeps_last_values_witness :
  form (ui (@run memHost [ChangeItemName "Lam"; ChangePrice "5"; ChangeItemName "Lamp"]
              (memStart signedIn)))
  = {| form_item_name := "Lamp"; form_listing_id := ""; form_price := "5";
       form_date_sold := ""; form_quantity := JsInt 1; form_notes := "" |}.
Proof.
  refine (proj1 (@typing_keeps_last_values memHost
            [ChangeItemName "Lam"; ChangePrice "5"; ChangeItemName "Lamp"]
            (memStart signedIn) _)).
  repeat constructor.
Defined.

(** X18 on the form of the first render. *)
Lemma blank_price_is_zero_witness :
  exists (record : Repair) (e : option PostgrestError) (rest : list Call),
    calls (snd (@handleSubmit memHost (memStart signedIn)))
    = [] ++ Called preventDefault tt
            :: Called (db_insert "repairs" [record]) e :: rest
    /\ price record = S754_zero false
    /\ item_name record = ""
    /\ listing_id record = "".
Proof.
  apply (@blank_price_is_zero memHost (memStart signedIn)). constructor.
Defined.

(** X19 on the first row of the scenario. *)
Lemma date_only_sale_date_witness :
  exists rec : Repair,
    @normalizeRow memHost row1001 = Done (Some rec)
    /\ date_sold rec = ("2024-01-05" ++ "T00:00:00.000Z")%string.
Proof.
  apply (@date_only_sale_date memHost row1001 "2024-01-05" 1704412800000);
    vm_compute; reflexivity.
Defined.
